(** * The play aggregator of mirror-match, embedded in Rocq

    This development follows [scripts/build_plays_with_filters.py]: the two
    per-play metrics, the field zone classifier, the play record builder and
    the tendency rollup.  It also embeds [compute_tendencies] of
    [scripts/build_tendencies.py] and the play loop of
    [scripts/preprocess_data.py].

    Modelling choices.
    - A pandas data frame is the list of its rows, in row order.  A row is a
      record with one field per column the script reads.  A table has its
      columns: the frame without columns that [load_bdb_data] returns when
      it finds no file is not a value of the model, so the statements about
      exceptions are made for tables with a row.
    - A Python [float] is idealised as a real number; a cell that pandas
      reports as missing ([pd.isna]) is [None].  The coordinates [x], [y]
      are read with [float(...)] and are taken to be present.
    - Integer columns ([game_id], [play_id], [nfl_id], [frame_id]) are [Z];
      pandas holds them as [numpy.int64], so the two additions the script
      makes on frame indices wrap around at 2^63 ([int64_add]).
    - A Python exception is a value of [exn], carried by [result].
    - A Python [dict] with string keys is an association list in insertion
      order, as [json.dump] writes it.
    - The play object is a record; the keys that the script adds only when a
      play-by-play row is found form the optional block [meta]. *)

From Stdlib Require Import ZArith List String Bool Reals Lra Lia.
From Stdlib Require Import Sorting.Sorted Sorting.Permutation.
Import ListNotations.

Local Open Scope string_scope.
Local Open Scope list_scope.

(* ------------------------------------------------------------------ *)
(** ** Python primitives *)

Inductive exn : Type :=
| IndexError
| ValueError
| ZeroDivisionError.

Inductive result (A : Type) : Type :=
| Ok (a : A)
| Raise (e : exn).

Arguments Ok {A} a.
Arguments Raise {A} e.

Definition bind {A B : Type} (m : result A) (k : A -> result B) : result B :=
  match m with
  | Ok a => k a
  | Raise e => Raise e
  end.

Notation "x <- m ;; k" := (bind m (fun x => k))
  (at level 61, m at next level, right associativity).

(** [for a in l: out.append(f(a))], stopping at the first exception. *)
Fixpoint mapM {A B : Type} (f : A -> result B) (l : list A) : result (list B) :=
  match l with
  | [] => Ok []
  | a :: l' => b <- f a ;; bs <- mapM f l' ;; Ok (b :: bs)
  end.

(** [bool(v)] for a float. *)
Definition truthy (v : R) : bool :=
  if Req_dec_T v 0 then false else true.

(** [int(v)] for a float: truncation towards zero. *)
Definition py_int (v : R) : Z :=
  if Rle_dec 0 v then Int_part v else (- Int_part (- v))%Z.

(** Nearest integer, ties to the even one: the rounding of [round]. *)
Definition round_half_even (v : R) : Z :=
  let n := Int_part v in
  let fr := frac_part v in
  if Rlt_dec fr (1 / 2) then n
  else if Rlt_dec (1 / 2) fr then (n + 1)%Z
  else if Z.even n then n else (n + 1)%Z.

(** [round(v, 1)]. *)
Definition round1 (v : R) : R :=
  (IZR (round_half_even (v * 10)) / 10)%R.

(** The range of [numpy.int64], from -2^63 to 2^63 - 1. *)
Definition int64_min : Z := -9223372036854775808.
Definition int64_max : Z := 9223372036854775807.

(** The signed 64-bit value congruent to [z] modulo 2^64. *)
Definition wrap_int64 (z : Z) : Z :=
  ((z - int64_min) mod 18446744073709551616 + int64_min)%Z.

(** [a + b] when an operand is a [numpy.int64]: the sum wraps around. *)
Definition int64_add (a b : Z) : Z := wrap_int64 (a + b).

(** [a / b] on floats. *)
Definition py_div (a b : R) : result R :=
  if Req_dec_T b 0 then Raise ZeroDivisionError else Ok (a / b)%R.

Section Dict.
Context {V : Type}.

Definition dict : Type := list (string * V).

  (** [d.get(k)] *)
Fixpoint dict_get (k : string) (d : dict) : option V :=
    match d with
    | [] => None
    | (k', v) :: d' => if String.eqb k' k then Some v else dict_get k d'
    end.

  (** [d[k] = v] *)
Fixpoint dict_set (k : string) (v : V) (d : dict) : dict :=
    match d with
    | [] => [(k, v)]
    | (k', v') :: d' =>
        if String.eqb k' k then (k', v) :: d' else (k', v') :: dict_set k v d'
    end.

  (** [k in d] *)
Definition dict_mem (k : string) (d : dict) : bool :=
    match dict_get k d with
    | Some _ => true
    | None => false
    end.
End Dict.

Arguments dict V : clear implicits.

(** [sum(...)] of floats and of ints. *)
Definition Rsum (l : list R) : R := fold_left Rplus l 0%R.
Definition Zsum (l : list Z) : Z := fold_left Z.add l 0%Z.

(** [Series.min()] and [Series.max()]; [None] stands for the [NaN] pandas
    returns on an empty series. *)
Definition series_min (l : list R) : option R :=
  match l with
  | [] => None
  | a :: l' => Some (fold_left Rmin l' a)
  end.

Definition series_max (l : list Z) : option Z :=
  match l with
  | [] => None
  | a :: l' => Some (fold_left Z.max l' a)
  end.

(** The distinct keys of a [groupby], in increasing order. *)
Section GroupKeys.
Context {K : Type} (ltb eqb : K -> K -> bool).

Fixpoint insert_key (k : K) (ks : list K) : list K :=
    match ks with
    | [] => [k]
    | k' :: ks' =>
        if eqb k k' then ks
        else if ltb k k' then k :: ks
        else k' :: insert_key k ks'
    end.

Definition group_keys (l : list K) : list K :=
    fold_right insert_key [] l.
End GroupKeys.

(* ------------------------------------------------------------------ *)
(** ** The three tables *)

Module Input.
Record row : Type := mk {
    game_id : Z;
    play_id : Z;
    nfl_id : Z;
    frame_id : Z;
    x : R;
    y : R;
    s : option R;
    player_name : string;
    player_position : string;
    player_side : string;
    player_role : string;
    play_direction : string;
    absolute_yardline_number : option R;
    ball_land_x : option R;
    ball_land_y : option R
  }.
End Input.

Module Output.
Record row : Type := mk {
    game_id : Z;
    play_id : Z;
    nfl_id : Z;
    frame_id : Z;
    x : R;
    y : R
  }.
End Output.

Module Nfl.
Record row : Type := mk {
    game_id : Z;
    play_id : Z;
    down : option R;
    ydstogo : option R;
    yardline_100 : option R;
    play_type : option string;
    yards_gained : option R;
    shotgun : option R;
    pass_length : option string;
    pass_location : option string;
    posteam : option string;
    defteam : option string;
    qtr : option R;
    desc : option string
  }.
End Nfl.

(* ------------------------------------------------------------------ *)
(** ** Per-play metrics *)

Definition is_target (r : Input.row) : bool :=
  String.eqb (Input.player_role r) "Targeted Receiver".

Definition is_defense (r : Input.row) : bool :=
  String.eqb (Input.player_side r) "Defense".

Definition at_frame (f : Z) (r : Input.row) : bool :=
  (Input.frame_id r =? f)%Z.

(** [sqrt((r.x - target_x)**2 + (r.y - target_y)**2)] *)
Definition distance (target_x target_y : R) (r : Input.row) : R :=
  sqrt ((Input.x r - target_x) ^ 2 + (Input.y r - target_y) ^ 2).

Definition compute_coverage_tightness (play_df : list Input.row) : option R :=
  let snap_frame := filter (at_frame 1) play_df in
  let target := filter is_target snap_frame in
  match target with
  | [] => None
  | t :: _ =>
      let target_x := Input.x t in
      let target_y := Input.y t in
      let dbs := filter is_defense snap_frame in
      match dbs with
      | [] => None
      | _ :: _ => series_min (map (distance target_x target_y) dbs)
      end
  end.

Definition compute_separation_at_target (play_df : list Input.row) : option R :=
  let max_frame := series_max (map Input.frame_id play_df) in
  let last_frame :=
    match max_frame with
    | Some m => filter (at_frame m) play_df
    | None => []
    end in
  let target := filter is_target last_frame in
  match target with
  | [] => None
  | t :: _ =>
      let target_x := Input.x t in
      let target_y := Input.y t in
      let dbs := filter is_defense last_frame in
      match dbs with
      | [] => None
      | _ :: _ => series_min (map (distance target_x target_y) dbs)
      end
  end.

(* ------------------------------------------------------------------ *)
(** ** Field zone *)

Definition get_field_zone (yardline : option R) : string :=
  match yardline with
  | None => "unknown"
  | Some v =>
      if Rle_dec v 20 then "redzone"
      else if Rle_dec v 50 then "midfield"
      else "own_territory"
  end.

(* ------------------------------------------------------------------ *)
(** ** Play records *)

Record Frame : Type := mkFrame {
  f : Z;
  fx : R;
  fy : R;
  fs : R
}.

Record Player : Type := mkPlayer {
  nflId : Z;
  name : string;
  position : string;
  side : string;
  role : string;
  team : string;
  frames : list Frame
}.

(** The keys written only when a play-by-play row matches. *)
Record Meta : Type := mkMeta {
  down : Z;
  yardsToGo : Z;
  playType : string;
  yardsGained : Z;
  shotgun : bool;
  passLength : option string;
  passLocation : option string;
  offense : string;
  defense : string;
  quarter : Z;
  description : string
}.

Record Play : Type := mkPlay {
  gameId : Z;
  playId : Z;
  direction : string;
  yardline : Z;
  ballLandX : option R;
  ballLandY : option R;
  numFrames : Z;
  numInputFrames : Z;
  numOutputFrames : Z;
  players : list Player;
  coverageTightness : option R;
  separation : option R;
  fieldZone : string;
  meta : option Meta
}.

(* ------------------------------------------------------------------ *)
(** ** Play record builder *)

Definition key_ltb (a b : Z * Z) : bool :=
  (fst a <? fst b)%Z || ((fst a =? fst b)%Z && (snd a <? snd b)%Z).

Definition key_eqb (a b : Z * Z) : bool :=
  (fst a =? fst b)%Z && (snd a =? snd b)%Z.

Definition input_key (r : Input.row) : Z * Z :=
  (Input.game_id r, Input.play_id r).

Definition output_key (r : Output.row) : Z * Z :=
  (Output.game_id r, Output.play_id r).

Definition nfl_key (r : Nfl.row) : Z * Z :=
  (Nfl.game_id r, Nfl.play_id r).

(** [df.groupby(['game_id', 'play_id'])]: the groups in key order, each with
    its rows in table order. *)
Definition groupby_play (df : list Input.row) : list ((Z * Z) * list Input.row) :=
  map (fun k => (k, filter (fun r => key_eqb (input_key r) k) df))
      (group_keys key_ltb key_eqb (map input_key df)).

(** [output_grouped.get_group((game_id, play_id))]; the empty list stands
    for the [KeyError] (or, on an empty table, the [AttributeError]) that
    the script catches. *)
Definition get_group (output_df : list Output.row) (k : Z * Z) : list Output.row :=
  filter (fun r => key_eqb (output_key r) k) output_df.

(** [play_df.groupby('nfl_id')] *)
Definition groupby_player (play_df : list Input.row) : list (Z * list Input.row) :=
  map (fun id => (id, filter (fun r => (Input.nfl_id r =? id)%Z) play_df))
      (group_keys Z.ltb Z.eqb (map Input.nfl_id play_df)).

(** [df.sort_values('frame_id')], as an insertion sort.  It keeps rows with
    equal frames in table order; pandas does not fix their order, and no
    statement below depends on it. *)
Section SortValues.
Context {A : Type} (frame_of : A -> Z).

Fixpoint insert_row (r : A) (l : list A) : list A :=
    match l with
    | [] => [r]
    | r' :: l' =>
        if (frame_of r <=? frame_of r')%Z then r :: l
        else r' :: insert_row r l'
    end.

Definition sort_values (l : list A) : list A :=
    fold_right insert_row [] l.
End SortValues.

Definition input_frame (row : Input.row) : Frame :=
  {| f := Input.frame_id row;
     fx := round1 (Input.x row);
     fy := round1 (Input.y row);
     fs := match Input.s row with
           | Some v => round1 v
           | None => 0%R
           end |}.

Definition output_frame (max_input_frame : Z) (row : Output.row) : Frame :=
  {| f := int64_add (Output.frame_id row) max_input_frame;
     fx := round1 (Output.x row);
     fy := round1 (Output.y row);
     fs := 0%R |}.

(** The body of the loop over [input_play_df.groupby('nfl_id')]. *)
Definition build_player (has_output : bool) (output_play_df : list Output.row)
    (max_input_frame : Z) (nfl_id : Z) (player_input_df : list Input.row)
  : result Player :=
  let player_input_df := sort_values Input.frame_id player_input_df in
  match player_input_df with
  | [] => Raise IndexError
  | first_player :: _ =>
      let frames := map input_frame player_input_df in
      let frames :=
        if has_output
           && existsb (fun r => (Output.nfl_id r =? nfl_id)%Z) output_play_df
        then
          let player_output_df :=
            sort_values Output.frame_id
              (filter (fun r => (Output.nfl_id r =? nfl_id)%Z) output_play_df) in
          frames ++ map (output_frame max_input_frame) player_output_df
        else frames in
      Ok {| nflId := nfl_id;
            name := Input.player_name first_player;
            position := Input.player_position first_player;
            side := Input.player_side first_player;
            role := Input.player_role first_player;
            team := if String.eqb (Input.player_side first_player) "Offense"
                    then "away" else "home";
            frames := frames |}
  end.

Definition build_meta (nfl_row : Nfl.row) : Meta :=
  {| down := match Nfl.down nfl_row with Some v => py_int v | None => 0%Z end;
     yardsToGo := match Nfl.ydstogo nfl_row with Some v => py_int v | None => 0%Z end;
     playType := match Nfl.play_type nfl_row with Some v => v | None => "unknown" end;
     yardsGained := match Nfl.yards_gained nfl_row with Some v => py_int v | None => 0%Z end;
     shotgun := match Nfl.shotgun nfl_row with Some v => truthy v | None => false end;
     passLength := Nfl.pass_length nfl_row;
     passLocation := Nfl.pass_location nfl_row;
     offense := match Nfl.posteam nfl_row with Some v => v | None => "UNK" end;
     defense := match Nfl.defteam nfl_row with Some v => v | None => "UNK" end;
     quarter := match Nfl.qtr nfl_row with Some v => py_int v | None => 1%Z end;
     description := match Nfl.desc nfl_row with Some v => v | None => "" end |}.

(** [round(v, 1) if v else None] *)
Definition round_if_truthy (v : option R) : option R :=
  match v with
  | None => None
  | Some d => if truthy d then Some (round1 d) else None
  end.

(** The body of the loop over [input_grouped]. *)
Definition build_play (output_df : list Output.row) (nfl_df : list Nfl.row)
    (k : Z * Z) (input_play_df : list Input.row) : result Play :=
  let '(game_id, play_id) := k in
  let nfl_play := filter (fun r => key_eqb (nfl_key r) (game_id, play_id)) nfl_df in
  match input_play_df with
  | [] => Raise IndexError
  | first_row :: rest =>
      let coverage_tightness := compute_coverage_tightness input_play_df in
      let separation := compute_separation_at_target input_play_df in
      (* [input_play_df['frame_id'].max()] of a table with a first row *)
      let max_input_frame :=
        fold_left Z.max (map Input.frame_id rest) (Input.frame_id first_row) in
      let output_play_df := get_group output_df (game_id, play_id) in
      let has_output := match output_play_df with [] => false | _ :: _ => true end in
      players <-
        mapM (fun g => build_player has_output output_play_df max_input_frame
                                    (fst g) (snd g))
             (groupby_player input_play_df) ;;
      (* [frame_id.max() if has_output and not output_play_df.empty else 0]:
         the group is empty exactly when there is no output. *)
      let max_output_frame :=
        match series_max (map Output.frame_id output_play_df) with
        | Some m => m
        | None => 0%Z
        end in
      let total_frames := int64_add max_input_frame max_output_frame in
      yardline <-
        match Input.absolute_yardline_number first_row with
        | Some v => Ok (py_int v)
        | None => Raise ValueError
        end ;;
      Ok {| gameId := game_id;
            playId := play_id;
            direction := Input.play_direction first_row;
            yardline := yardline;
            ballLandX := Input.ball_land_x first_row;
            ballLandY := Input.ball_land_y first_row;
            numFrames := total_frames;
            numInputFrames := max_input_frame;
            numOutputFrames := if has_output then max_output_frame else 0%Z;
            players := players;
            coverageTightness := round_if_truthy coverage_tightness;
            separation := round_if_truthy separation;
            fieldZone := get_field_zone (Input.absolute_yardline_number first_row);
            meta := match nfl_play with
                    | [] => None
                    | nfl_row :: _ => Some (build_meta nfl_row)
                    end |}
  end.

Definition build_play_data (input_df : list Input.row)
    (output_df : list Output.row) (nfl_df : list Nfl.row) : result (list Play) :=
  mapM (fun g => build_play output_df nfl_df (fst g) (snd g))
       (groupby_play input_df).

(* ------------------------------------------------------------------ *)
(** ** Tendency rollup *)

Record Overall : Type := mkOverall {
  passRate : R;
  runRate : R;
  avgYards : R;
  avgCoverage : R
}.

Record Tendency : Type := mkTendency {
  totalPlays : nat;
  overall : Overall
}.

(** [play.get('offense', 'UNK')] *)
Definition get_offense (play : Play) : string :=
  match meta play with
  | Some m => offense m
  | None => "UNK"
  end.

(** [p.get('playType') == t] *)
Definition playType_is (t : string) (p : Play) : bool :=
  match meta p with
  | Some m => String.eqb (playType m) t
  | None => false
  end.

(** [p.get('yardsGained', 0)] *)
Definition get_yardsGained (p : Play) : Z :=
  match meta p with
  | Some m => yardsGained m
  | None => 0%Z
  end.

(** The filter [if p.get('coverageTightness')]. *)
Definition has_coverage (p : Play) : bool :=
  match coverageTightness p with
  | Some v => truthy v
  | None => false
  end.

(** [p.get('coverageTightness', 0) or 0] *)
Definition coverage_or_0 (p : Play) : R :=
  match coverageTightness p with
  | Some v => if truthy v then v else 0%R
  | None => 0%R
  end.

(** The first loop: [teams[team].append(play)], creating the list on the
    first play of a team. *)
Definition add_play (teams : dict (list Play)) (play : Play) : dict (list Play) :=
  let team := get_offense play in
  let teams := if dict_mem team teams then teams else dict_set team [] teams in
  match dict_get team teams with
  | Some l => dict_set team (l ++ [play]) teams
  | None => teams
  end.

Definition group_by_offense (plays : list Play) : dict (list Play) :=
  fold_left add_play plays [].

(** The value stored under a team that passes the sample-size test. *)
Definition team_tendency (team_plays : list Play) : result Tendency :=
  let pass_plays := filter (playType_is "pass") team_plays in
  let run_plays := filter (playType_is "run") team_plays in
  pr <- match team_plays with
        | [] => Ok 0%R
        | _ :: _ => py_div (INR (List.length pass_plays)) (INR (List.length team_plays))
        end ;;
  rr <- match team_plays with
        | [] => Ok 0%R
        | _ :: _ => py_div (INR (List.length run_plays)) (INR (List.length team_plays))
        end ;;
  ay <- py_div (IZR (Zsum (map get_yardsGained team_plays)))
               (INR (List.length team_plays)) ;;
  ac <- py_div (Rsum (map coverage_or_0 (filter has_coverage team_plays)))
               (INR (Nat.max 1 (List.length (filter has_coverage team_plays)))) ;;
  Ok {| totalPlays := List.length team_plays;
        overall := {| passRate := pr; runRate := rr;
                      avgYards := ay; avgCoverage := ac |} |}.

(** One turn of the loop over [teams.items()]. *)
Definition tendency_step (acc : result (dict Tendency))
    (item : string * list Play) : result (dict Tendency) :=
  tendencies <- acc ;;
  let '(team, team_plays) := item in
  if (List.length team_plays <? 10)%nat then Ok tendencies
  else
    t <- team_tendency team_plays ;;
    Ok (dict_set team t tendencies).

Definition compute_tendencies (plays : list Play) : result (dict Tendency) :=
  match plays with
  | [] => Ok []
  | _ :: _ => fold_left tendency_step (group_by_offense plays) (Ok [])
  end.

(* ------------------------------------------------------------------ *)
(** ** [scripts/build_tendencies.py] *)

(** [round(v, 3)] *)
Definition round3 (v : R) : R :=
  (IZR (round_half_even (v * 1000)) / 1000)%R.

(** [Series.mean()]: the missing values are skipped, and [None] stands for
    the [NaN] of a series without a value. *)
Definition series_mean (l : list (option R)) : option R :=
  let present := flat_map (fun v => match v with Some a => [a] | None => [] end) l in
  match present with
  | [] => None
  | _ :: _ => Some (Rsum present / INR (List.length present))%R
  end.

Module BuildTendencies.

Record row : Type := mk {
  posteam : option string;
  play_type : option string;
  pass_location : option string;
  shotgun : option R;
  yards_gained : option R;
  down : option R;
  ydstogo : option R
}.

Record Stats : Type := mkStats {
  sampleSize : nat;
  passRate : R;
  runRate : R;
  passLeft : R;
  passMiddle : R;
  passRight : R;
  shotgunRate : R;
  avgYards : R;
  passAvgYards : R;
  runAvgYards : R
}.

(** [plays['play_type'] == t] *)
Definition play_type_is (t : string) (r : row) : bool :=
  match play_type r with
  | Some v => String.eqb v t
  | None => false
  end.

(** [pass_plays['pass_location'] == l] *)
Definition pass_location_is (l : string) (r : row) : bool :=
  match pass_location r with
  | Some v => String.eqb v l
  | None => false
  end.

(** [plays['shotgun'] == 1] *)
Definition shotgun_is_1 (r : row) : bool :=
  match shotgun r with
  | Some v => if Req_dec_T v 1 then true else false
  | None => false
  end.

(** [round(m, 1) if pd.notna(m) else 0] *)
Definition round1_or_0 (m : option R) : R :=
  match m with
  | Some v => round1 v
  | None => 0%R
  end.

Definition compute_tendencies (plays : list row) : result (option Stats) :=
  let total := List.length plays in
  if (total =? 0)%nat then Ok None
  else
    let pass_plays := filter (play_type_is "pass") plays in
    let run_plays := filter (play_type_is "run") plays in
    let pass_count := List.length pass_plays in
    let run_count := List.length run_plays in
    let pass_run_total := (pass_count + run_count)%nat in
    if (pass_run_total =? 0)%nat then Ok None
    else
      let pass_left := List.length (filter (pass_location_is "left") pass_plays) in
      let pass_mid := List.length (filter (pass_location_is "middle") pass_plays) in
      let pass_right := List.length (filter (pass_location_is "right") pass_plays) in
      let shotgun_plays := filter shotgun_is_1 plays in
      let avg_yards := series_mean (map yards_gained plays) in
      let pass_avg_yards :=
        if (0 <? List.length pass_plays)%nat
        then series_mean (map yards_gained pass_plays) else Some 0%R in
      let run_avg_yards :=
        if (0 <? List.length run_plays)%nat
        then series_mean (map yards_gained run_plays) else Some 0%R in
      pr <- py_div (INR pass_count) (INR pass_run_total) ;;
      rr <- py_div (INR run_count) (INR pass_run_total) ;;
      pl <- (if (0 <? pass_count)%nat
             then v <- py_div (INR pass_left) (INR pass_count) ;; Ok (round3 v)
             else Ok 0%R) ;;
      pm <- (if (0 <? pass_count)%nat
             then v <- py_div (INR pass_mid) (INR pass_count) ;; Ok (round3 v)
             else Ok 0%R) ;;
      prt <- (if (0 <? pass_count)%nat
              then v <- py_div (INR pass_right) (INR pass_count) ;; Ok (round3 v)
              else Ok 0%R) ;;
      sr <- py_div (INR (List.length shotgun_plays)) (INR pass_run_total) ;;
      Ok (Some {| sampleSize := pass_run_total;
                  passRate := round3 pr;
                  runRate := round3 rr;
                  passLeft := pl;
                  passMiddle := pm;
                  passRight := prt;
                  shotgunRate := round3 sr;
                  avgYards := round1_or_0 avg_yards;
                  passAvgYards := round1_or_0 pass_avg_yards;
                  runAvgYards := round1_or_0 run_avg_yards |}).

End BuildTendencies.

(* ------------------------------------------------------------------ *)
(** ** [scripts/preprocess_data.py] *)

Module PreprocessData.

(** A row of a weekly input table: the columns of [Input.row] and the two
    more that this script reads. *)
Record row : Type := mk {
  tracking : Input.row;
  dir : option R;
  num_frames_output : option R
}.

Record Frame : Type := mkFrame {
  f : Z;
  x : R;
  y : R;
  s : R;
  d : R
}.

Record Player : Type := mkPlayer {
  nflId : Z;
  name : string;
  position : string;
  side : string;
  role : string;
  frames : list Frame
}.

Record Play : Type := mkPlay {
  gameId : Z;
  playId : Z;
  direction : string;
  yardline : Z;
  ballLandX : option R;
  ballLandY : option R;
  numFrames : Z;
  players : list Player
}.

Definition frame_id (r : row) : Z := Input.frame_id (tracking r).
Definition nfl_id (r : row) : Z := Input.nfl_id (tracking r).
Definition key (r : row) : Z * Z := input_key (tracking r).

(** [load_week_data]: the files of a week, when they exist. *)
Definition load_week_data (input_files output_files : Z -> option (list row))
    (week_num : Z) : option (list row) * option (list row) :=
  match input_files week_num with
  | None => (None, None)
  | Some input_df => (Some input_df, output_files week_num)
  end.

Definition frame_of_row (r : row) : Frame :=
  {| f := frame_id r;
     x := round1 (Input.x (tracking r));
     y := round1 (Input.y (tracking r));
     s := match Input.s (tracking r) with
          | Some v => round1 v
          | None => 0%R
          end;
     d := match dir r with
          | Some v => IZR (round_half_even v)
          | None => 0%R
          end |}.

(** The body of the loop over [play_df.groupby('nfl_id')]. *)
Definition process_player (id : Z) (player_df : list row) : result Player :=
  let player_df := sort_values frame_id player_df in
  match player_df with
  | [] => Raise IndexError
  | first_player_row :: _ =>
      Ok {| nflId := id;
            name := Input.player_name (tracking first_player_row);
            position := Input.player_position (tracking first_player_row);
            side := Input.player_side (tracking first_player_row);
            role := Input.player_role (tracking first_player_row);
            frames := map frame_of_row player_df |}
  end.

Definition process_play (play_df : list row) : result Play :=
  match play_df with
  | [] => Raise IndexError
  | first_row :: _ =>
      players <-
        mapM (fun id => process_player
                          id (filter (fun r => (nfl_id r =? id)%Z) play_df))
             (group_keys Z.ltb Z.eqb (map nfl_id play_df)) ;;
      yardline <-
        match Input.absolute_yardline_number (tracking first_row) with
        | Some v => Ok (py_int v)
        | None => Raise ValueError
        end ;;
      numFrames <-
        match num_frames_output first_row with
        | Some v => Ok (py_int v)
        | None => Raise ValueError
        end ;;
      Ok {| gameId := Input.game_id (tracking first_row);
            playId := Input.play_id (tracking first_row);
            direction := Input.play_direction (tracking first_row);
            yardline := yardline;
            ballLandX := option_map round1 (Input.ball_land_x (tracking first_row));
            ballLandY := option_map round1 (Input.ball_land_y (tracking first_row));
            numFrames := numFrames;
            players := players |}
  end.

(** The rows of the play with key [k]. *)
Definition play_rows (k : Z * Z) (input_df : list row) : list row :=
  filter (fun r => key_eqb (key r) k) input_df.

(** The loop over the plays of a week: a play whose processing raises is
    reported and skipped. *)
Definition week_plays (input_df : list row) : list Play :=
  flat_map (fun k => match process_play (play_rows k input_df) with
                     | Ok play_data => [play_data]
                     | Raise _ => []
                     end)
           (group_keys key_ltb key_eqb (map key input_df)).

(** The plays that [main] collects over the weeks 1 to 3, and its sample. *)
Definition all_plays (input_files output_files : Z -> option (list row))
  : list Play :=
  flat_map (fun week => match fst (load_week_data input_files output_files week) with
                        | None => []
                        | Some input_df => week_plays input_df
                        end)
           [1; 2; 3]%Z.

Definition sample_plays (input_files output_files : Z -> option (list row))
  : list Play :=
  firstn 20 (all_plays input_files output_files).

End PreprocessData.

(* ------------------------------------------------------------------ *)
(** ** The output document *)

(** The field zones the front end filters on ([main], the [filters] block). *)
Definition field_zone_filter : list string :=
  ["redzone"; "midfield"; "own_territory"].

Record Filters : Type := mkFilters {
  filterCoverageTightness : dict Z;
  filterFieldZone : list string;
  filterDown : list Z
}.

Record Document : Type := mkDocument {
  docPlays : list Play;
  docTendencies : dict Tendency;
  docFilters : Filters
}.

(** [main] between the loading of the three tables and the writing of the
    document. *)
Definition main (input_df : list Input.row) (output_df : list Output.row)
    (nfl_df : list Nfl.row) : result Document :=
  plays <- build_play_data input_df output_df nfl_df ;;
  tendencies <- compute_tendencies plays ;;
  Ok {| docPlays := plays;
        docTendencies := tendencies;
        docFilters :=
          {| filterCoverageTightness :=
               [("tight", 3%Z); ("normal", 5%Z); ("loose", 7%Z)];
             filterFieldZone := field_zone_filter;
             filterDown := [1; 2; 3; 4]%Z |} |}.

(* ------------------------------------------------------------------ *)
(** ** Specification vocabulary *)

(** [m] is the least element of [l]. *)
Definition is_minimum (m : R) (l : list R) : Prop :=
  In m l /\ forall z, In z l -> (m <= z)%R.

(** [m] is the greatest element of [l]. *)
Definition is_maximum (m : Z) (l : list Z) : Prop :=
  In m l /\ forall z, In z l -> (z <= m)%Z.

(** [z] is a value of [numpy.int64]. *)
Definition fits_int64 (z : Z) : Prop :=
  (int64_min <= z <= int64_max)%Z.

(** Frame indices grow strictly along the list. *)
Definition strictly_increasing (l : list Z) : Prop :=
  StronglySorted Z.lt l.

(** The number of plays in [plays] run by [team]. *)
Definition plays_of (team : string) (plays : list Play) : list Play :=
  filter (fun p => String.eqb (get_offense p) team) plays.

(** The pre-event and post-event rows of the play with key [k]. *)
Definition pre_event (k : Z * Z) (input_df : list Input.row) : list Input.row :=
  filter (fun r => key_eqb (input_key r) k) input_df.

Definition post_event (k : Z * Z) (output_df : list Output.row) : list Output.row :=
  filter (fun r => key_eqb (output_key r) k) output_df.

(** The rows of one player among the rows of a play. *)
Definition pre_of_player (id : Z) (rows : list Input.row) : list Input.row :=
  filter (fun r => (Input.nfl_id r =? id)%Z) rows.

Definition post_of_player (id : Z) (rows : list Output.row) : list Output.row :=
  filter (fun r => (Output.nfl_id r =? id)%Z) rows.

(** The play-by-play rows with key [k]. *)
Definition matching_meta (k : Z * Z) (nfl_df : list Nfl.row) : list Nfl.row :=
  filter (fun r => key_eqb (nfl_key r) k) nfl_df.

(** Rows in non-decreasing frame order. *)
Definition frame_ordered {A : Type} (frame_of : A -> Z) (l : list A) : Prop :=
  StronglySorted (fun a b => (frame_of a <= frame_of b)%Z) l.

(** The lexicographic order of the (game id, play id) keys. *)
Definition key_lt (a b : Z * Z) : Prop :=
  (fst a < fst b)%Z \/ (fst a = fst b /\ snd a < snd b)%Z.

(** The first row of the play of row [r], which [build_play_data] reads the
    play-level columns from. *)
Definition first_row_of_play (input_df : list Input.row) (r : Input.row) : Prop :=
  exists rest, pre_event (input_key r) input_df = r :: rest.

(** Rows for worked examples: a tracked player at a frame. *)
Definition tracked (nfl_id frame_id : Z) (x y : R) (player_side player_role : string)
  : Input.row :=
  Input.mk 2023090700 101 nfl_id frame_id x y (Some 0%R) "Player" "WR"
           player_side player_role "right" (Some 35%R) None None.

Definition thrown (nfl_id frame_id : Z) (x y : R) : Output.row :=
  Output.mk 2023090700 101 nfl_id frame_id x y.

(** A row moved to another frame index, everything else kept. *)
Definition set_frame (frame_id : Z) (r : Input.row) : Input.row :=
  Input.mk (Input.game_id r) (Input.play_id r) (Input.nfl_id r) frame_id
           (Input.x r) (Input.y r) (Input.s r) (Input.player_name r)
           (Input.player_position r) (Input.player_side r) (Input.player_role r)
           (Input.play_direction r) (Input.absolute_yardline_number r)
           (Input.ball_land_x r) (Input.ball_land_y r).

(** A row with its frame index moved by [d]. *)
Definition shift_frame (d : Z) (r : Input.row) : Input.row :=
  set_frame (Input.frame_id r + d) r.

(** The example of the specification: defenders 3.0 and 5.5 away from a
    receiver at the origin. *)
Definition covered_play : list Input.row :=
  [ tracked 11 1 0 0 "Offense" "Targeted Receiver";
    tracked 21 1 3 0 "Defense" "Defensive Coverage";
    tracked 22 1 0 (11 / 2) "Defense" "Defensive Coverage" ].

(** Two rows of the snap frame carry the target role. *)
Definition two_target_play : list Input.row :=
  [ tracked 11 1 0 0 "Offense" "Targeted Receiver";
    tracked 12 1 10 0 "Offense" "Targeted Receiver";
    tracked 21 1 3 0 "Defense" "Defensive Coverage" ].

(** A defender tracked at the receiver's own position. *)
Definition zero_distance_play : list Input.row :=
  [ tracked 11 1 5 5 "Offense" "Targeted Receiver";
    tracked 21 1 5 5 "Defense" "Defensive Coverage" ].

(** What both metrics do once the frame is chosen. *)
Definition nearest_defender (frame : list Input.row) : option R :=
  match filter is_target frame with
  | [] => None
  | t :: _ =>
      match filter is_defense frame with
      | [] => None
      | _ :: _ =>
          series_min (map (distance (Input.x t) (Input.y t))
                          (filter is_defense frame))
      end
  end.

(** Receiver and defender tracked over two frames: 3.0 apart at the snap,
    4.0 apart at the last frame. *)
Definition two_frame_play : list Input.row :=
  [ tracked 11 1 0 0 "Offense" "Targeted Receiver";
    tracked 21 1 3 0 "Defense" "Defensive Coverage";
    tracked 11 2 1 0 "Offense" "Targeted Receiver";
    tracked 21 2 5 0 "Defense" "Defensive Coverage" ].

(** The merge example of the specification: one pre-event frame and one
    post-event frame of the same player. *)
Definition merge_input : list Input.row :=
  [ tracked 11 1 10 20 "Offense" "Targeted Receiver" ].

Definition merge_output : list Output.row :=
  [ thrown 11 1 15 22 ].



(** A pre-event row at the last frame index a [numpy.int64] can hold. *)
Definition overflow_input : list Input.row :=
  [ tracked 11 int64_max 10 20 "Offense" "Targeted Receiver" ].

(** Two players tracked briefly: one at frame 1 only, the other at frame 2
    and at the single post-event frame. *)
Definition brief_input : list Input.row :=
  [ tracked 11 1 10 20 "Offense" "Targeted Receiver";
    tracked 21 2 12 21 "Defense" "Defensive Coverage" ].

Definition brief_output : list Output.row :=
  [ thrown 21 1 13 22 ].

(** A play-by-play row with every optional cell missing. *)
Definition blank_meta : Nfl.row :=
  Nfl.mk 2023090700 101 None None None None None None None None None None
         None None.

(** The value of a computation that raised nothing. *)
Definition ok_value {A : Type} (m : result A) : option A :=
  match m with
  | Ok a => Some a
  | Raise _ => None
  end.

(** [teams.get(team, [])] *)
Definition get_or_nil {V : Type} (k : string) (d : dict (list V)) : list V :=
  match dict_get k d with
  | Some l => l
  | None => []
  end.

(** A play record for worked examples, without and with metadata. *)
Definition bare_play : Play :=
  mkPlay 2023090700 101 "right" 35 None None 1 1 0 [] None None "midfield" None.

Definition typed_play (offense playType : string) : Play :=
  mkPlay 2023090700 101 "right" 35 None None 1 1 0 [] None None "midfield"
         (Some (mkMeta 1 10 playType 4 false None None offense "DEN" 1 "")).

(** Ten plays of one team: six passes, three runs and a punt. *)
Definition ten_plays : list Play :=
  repeat (typed_play "KC" "pass") 6 ++ repeat (typed_play "KC" "run") 3 ++
  [typed_play "KC" "punt"].

(** A pre-event row of a given play of the example game. *)
Definition tracked_in (play_id nfl_id frame_id : Z) (yardline : option R)
  : Input.row :=
  Input.mk 2023090700 play_id nfl_id frame_id 10 20 (Some 0%R) "Player" "WR"
           "Offense" "Targeted Receiver" "right" yardline None None.

(** Two plays, the later one first in the table. *)
Definition two_play_input : list Input.row :=
  [ tracked_in 202 11 1 (Some 35%R);
    tracked_in 101 12 1 (Some 60%R);
    tracked_in 101 11 1 (Some 60%R) ].

(** Ten plays of one row each, without play-by-play rows. *)
Definition ten_play_input : list Input.row :=
  map (fun play_id => tracked_in play_id 11 1 (Some 35%R))
      [1; 2; 3; 4; 5; 6; 7; 8; 9; 10]%Z.

(** A play-by-play row of the tendency script with a play type and a
    shotgun flag. *)
Definition pbp (play_type : string) (shotgun : R) : BuildTendencies.row :=
  BuildTendencies.mk (Some "KC") (Some play_type) None (Some shotgun)
                     (Some 4%R) (Some 1%R) (Some 10%R).

(** The plays that [main] of the tendency script keeps. *)
Definition is_regular (r : BuildTendencies.row) : bool :=
  BuildTendencies.play_type_is "pass" r || BuildTendencies.play_type_is "run" r.

(* ------------------------------------------------------------------ *)
(** ** Facts about the Python primitives *)

Create HintDb py discriminated.

(** A list with at least ten elements is not empty. *)
Ltac long_is_nonempty :=
  match goal with
  | |- ?l <> [] => destruct l; simpl in *; [lia | congruence]
  end.

Lemma truthy_true (v : R) : truthy v = true <-> v <> 0%R.
Proof.
  unfold truthy. destruct (Req_dec_T v 0); split; congruence.
Qed.

Lemma truthy_false (v : R) : truthy v = false <-> v = 0%R.
Proof.
  unfold truthy. destruct (Req_dec_T v 0); split; congruence.
Qed.

Lemma Int_part_IZR (n : Z) : Int_part (IZR n) = n.
Proof.
  symmetry. apply Int_part_spec. lra.
Qed.

Lemma Int_part_nonneg (v : R) : (0 <= v)%R -> (0 <= Int_part v)%Z.
Proof.
  intros Hv. destruct (base_Int_part v) as [_ Hgt].
  assert (H : (-1 < IZR (Int_part v))%R) by lra.
  apply lt_IZR in H. lia.
Qed.

Lemma round_half_even_IZR (n : Z) : round_half_even (IZR n) = n.
Proof.
  unfold round_half_even, frac_part. rewrite Int_part_IZR.
  destruct (Rlt_dec (IZR n - IZR n) (1 / 2)) as [_ | Hn]; [reflexivity | lra].
Qed.

Lemma round_half_even_nonneg (v : R) : (0 <= v)%R -> (0 <= round_half_even v)%Z.
Proof.
  intros Hv. pose proof (Int_part_nonneg v Hv) as Hn. unfold round_half_even.
  destruct (Rlt_dec _ _); [lia |].
  destruct (Rlt_dec _ _); [lia |].
  destruct (Z.even _); lia.
Qed.

Lemma round1_tenths (n : Z) : round1 (IZR n / 10) = (IZR n / 10)%R.
Proof.
  unfold round1. replace (IZR n / 10 * 10)%R with (IZR n) by lra.
  now rewrite round_half_even_IZR.
Qed.

Lemma round1_nonneg (v : R) : (0 <= v)%R -> (0 <= round1 v)%R.
Proof.
  intros Hv. unfold round1.
  assert (H : (0 <= round_half_even (v * 10))%Z)
    by (apply round_half_even_nonneg; lra).
  apply IZR_le in H. lra.
Qed.

Lemma fold_Rmin_spec (l : list R) :
  forall a, let m := fold_left Rmin l a in
            (m = a \/ In m l) /\ (m <= a)%R /\ forall z, In z l -> (m <= z)%R.
Proof.
  induction l as [| b l IH]; intros a; simpl.
  - repeat split; [now left | lra | tauto].
  - destruct (IH (Rmin a b)) as (Hin & Hle & Hall).
    pose proof (Rmin_l a b). pose proof (Rmin_r a b).
    repeat split.
    + destruct Hin as [Heq | Hin]; [| now right; right].
      rewrite Heq. unfold Rmin. destruct (Rle_dec a b); auto.
    + lra.
    + intros z [<- | Hz]; [lra | auto].
Qed.

Lemma series_min_spec (l : list R) (m : R) :
  series_min l = Some m -> is_minimum m l.
Proof.
  destruct l as [| a l]; simpl; [discriminate |].
  intros [= <-]. destruct (fold_Rmin_spec l a) as (Hin & Hle & Hall).
  split.
  - destruct Hin as [-> | Hin]; [now left | now right].
  - intros z [<- | Hz]; auto.
Qed.

Lemma fold_Zmax_spec (l : list Z) :
  forall a, let m := fold_left Z.max l a in
            (m = a \/ In m l) /\ (a <= m)%Z /\ forall z, In z l -> (z <= m)%Z.
Proof.
  induction l as [| b l IH]; intros a; simpl.
  - repeat split; [now left | lia | tauto].
  - destruct (IH (Z.max a b)) as (Hin & Hle & Hall).
    repeat split.
    + destruct Hin as [Heq | Hin]; [| now right; right].
      rewrite Heq. destruct (Z.max_spec a b) as [[_ ->] | [_ ->]]; auto.
    + lia.
    + intros z [<- | Hz]; [lia | auto].
Qed.

Lemma fold_Zmax_is_maximum (a : Z) (l : list Z) :
  is_maximum (fold_left Z.max l a) (a :: l).
Proof.
  destruct (fold_Zmax_spec l a) as (Hin & Hle & Hall). split.
  - destruct Hin as [-> | Hin]; [now left | now right].
  - intros z [<- | Hz]; auto.
Qed.

Lemma series_max_spec (l : list Z) (m : Z) :
  series_max l = Some m -> is_maximum m l.
Proof.
  destruct l as [| a l]; simpl; [discriminate |].
  intros [= <-]. apply fold_Zmax_is_maximum.
Qed.

Lemma is_maximum_unique (l : list Z) (m m' : Z) :
  is_maximum m l -> is_maximum m' l -> m = m'.
Proof.
  intros [Hin Hle] [Hin' Hle']. apply Hle in Hin'. apply Hle' in Hin. lia.
Qed.

Lemma distance_nonneg (tx ty : R) (r : Input.row) : (0 <= distance tx ty r)%R.
Proof. apply sqrt_pos. Qed.

#[local] Hint Resolve round1_nonneg distance_nonneg : py.

(* ------------------------------------------------------------------ *)
(** ** The play builder, inverted *)

Lemma bind_Ok {A B : Type} (m : result A) (k : A -> result B) (b : B) :
  bind m k = Ok b -> exists a, m = Ok a /\ k a = Ok b.
Proof.
  destruct m as [a | e]; simpl; [eauto | discriminate].
Qed.

Lemma mapM_Ok_In {A B : Type} (g : A -> result B) (l : list A) :
  forall bs b, mapM g l = Ok bs -> In b bs -> exists a, In a l /\ g a = Ok b.
Proof.
  induction l as [| a l IH]; simpl; intros bs b H Hin.
  - injection H as <-. destruct Hin.
  - apply bind_Ok in H as (b0 & Hb0 & H).
    apply bind_Ok in H as (bs0 & Hbs0 & H). injection H as <-.
    destruct Hin as [<- | Hin].
    + exists a. auto.
    + destruct (IH _ _ Hbs0 Hin) as (a' & Ha' & Hg). exists a'. auto.
Qed.

(** What a successful turn of the loop over the plays has computed. *)
Lemma build_play_Ok (output_df : list Output.row) (nfl_df : list Nfl.row)
    (k : Z * Z) (input_play_df : list Input.row) (p : Play) :
  build_play output_df nfl_df k input_play_df = Ok p ->
  exists first_row rest,
    input_play_df = first_row :: rest /\
    gameId p = fst k /\ playId p = snd k /\
    coverageTightness p = round_if_truthy (compute_coverage_tightness input_play_df) /\
    separation p = round_if_truthy (compute_separation_at_target input_play_df) /\
    numInputFrames p =
      fold_left Z.max (map Input.frame_id rest) (Input.frame_id first_row) /\
    numFrames p =
      int64_add (numInputFrames p)
        match series_max (map Output.frame_id (get_group output_df k)) with
        | Some m => m
        | None => 0%Z
        end /\
    mapM (fun g => build_player
                     (match get_group output_df k with [] => false | _ :: _ => true end)
                     (get_group output_df k) (numInputFrames p) (fst g) (snd g))
         (groupby_player input_play_df) = Ok (players p) /\
    meta p = match filter (fun r => key_eqb (nfl_key r) k) nfl_df with
             | [] => None
             | nfl_row :: _ => Some (build_meta nfl_row)
             end.
Proof.
  unfold build_play. destruct k as [game_id play_id].
  destruct input_play_df as [| first_row rest]; [discriminate |].
  intros H. apply bind_Ok in H as (ps & Hps & H).
  apply bind_Ok in H as (yl & Hyl & H). injection H as <-.
  exists first_row, rest. simpl. repeat split; auto.
Qed.

(* ------------------------------------------------------------------ *)
(** ** Field zone *)

(** C7. The classifier is total and returns one of four labels: [unknown]
    for a missing value, [redzone] exactly up to 20, [midfield] exactly
    above 20 and up to 50, [own_territory] exactly above 50; so 20 is
    [redzone] and 20.01 is [midfield]. *)
Theorem get_field_zone_spec :
  get_field_zone None = "unknown" /\
  (forall v : R,
      (get_field_zone (Some v) = "redzone" <-> (v <= 20)%R) /\
      (get_field_zone (Some v) = "midfield" <-> (20 < v <= 50)%R) /\
      (get_field_zone (Some v) = "own_territory" <-> (50 < v)%R)) /\
  get_field_zone (Some 20%R) = "redzone" /\
  get_field_zone (Some 50%R) = "midfield" /\
  get_field_zone (Some (2001 / 100)%R) = "midfield" /\
  (forall yardline,
      In (get_field_zone yardline)
         ["unknown"; "redzone"; "midfield"; "own_territory"]).
Proof.
  assert (Hv : forall v : R,
      (get_field_zone (Some v) = "redzone" <-> (v <= 20)%R) /\
      (get_field_zone (Some v) = "midfield" <-> (20 < v <= 50)%R) /\
      (get_field_zone (Some v) = "own_territory" <-> (50 < v)%R)).
  { intros v. unfold get_field_zone.
    destruct (Rle_dec v 20); [| destruct (Rle_dec v 50)];
      repeat split; intros; try discriminate; try reflexivity; lra. }
  split; [reflexivity |]. split; [exact Hv |].
  split; [apply Hv; lra |]. split; [apply Hv; lra |]. split; [apply Hv; lra |].
  intros [v |]; simpl; [| now left].
  destruct (Rle_dec v 20); [| destruct (Rle_dec v 50)]; simpl; tauto.
Qed.

(* ------------------------------------------------------------------ *)
(** ** Coverage tightness and separation *)

Lemma coverage_is_nearest (play_df : list Input.row) :
  compute_coverage_tightness play_df
  = nearest_defender (filter (at_frame 1) play_df).
Proof. reflexivity. Qed.

Lemma separation_is_nearest (play_df : list Input.row) (m : Z) :
  is_maximum m (map Input.frame_id play_df) ->
  compute_separation_at_target play_df
  = nearest_defender (filter (at_frame m) play_df).
Proof.
  intros Hm. unfold compute_separation_at_target.
  destruct (series_max (map Input.frame_id play_df)) as [m' |] eqn:E.
  - apply series_max_spec in E.
    now rewrite (is_maximum_unique _ _ _ E Hm).
  - destruct play_df; [destruct Hm as [[] _] | discriminate].
Qed.

Lemma nearest_defender_None (frame : list Input.row) :
  nearest_defender frame = None <->
  filter is_target frame = [] \/ filter is_defense frame = [].
Proof.
  unfold nearest_defender.
  destruct (filter is_target frame) as [| t ts];
    destruct (filter is_defense frame) as [| d ds]; simpl;
    split; intros H; auto; try discriminate;
    destruct H; discriminate.
Qed.

(** Closes a goal whose hypothesis [H] says that [nearest_defender] found a
    value on a frame without a target row or without a defender row. *)
Ltac no_nearest H :=
  rewrite (proj2 (nearest_defender_None _)) in H by auto; discriminate H.

Lemma nearest_defender_Some (frame : list Input.row) (t : Input.row)
    (ts : list Input.row) :
  filter is_target frame = t :: ts ->
  filter is_defense frame <> [] ->
  exists m,
    nearest_defender frame = Some m /\
    is_minimum m (map (distance (Input.x t) (Input.y t))
                      (filter is_defense frame)) /\
    (0 <= m)%R.
Proof.
  intros Ht Hd. unfold nearest_defender. rewrite Ht.
  destruct (filter is_defense frame) as [| d ds]; [congruence |].
  destruct (series_min (map (distance (Input.x t) (Input.y t)) (d :: ds)))
    as [m |] eqn:E; [| discriminate E].
  exists m. pose proof (series_min_spec _ _ E) as Hmin.
  repeat split; try apply Hmin.
  destruct Hmin as [Hin _]. apply in_map_iff in Hin as (r & <- & _).
  auto with py.
Qed.

Lemma round_if_truthy_Some (m : R) :
  m <> 0%R -> round_if_truthy (Some m) = Some (round1 m).
Proof.
  intros Hm. simpl. now apply truthy_true in Hm as ->.
Qed.

Lemma round_if_truthy_nonneg (v : option R) (d : R) :
  (forall m, v = Some m -> (0 <= m)%R) ->
  round_if_truthy v = Some d -> (0 <= d)%R.
Proof.
  intros Hv. destruct v as [m |]; simpl; [| discriminate].
  destruct (truthy m); [| discriminate].
  intros [= <-]. auto with py.
Qed.

(** C1 (amended). Coverage tightness is taken on the rows whose frame index
    is 1.  It is null, without an error, when no row of that frame has the
    target role or no row of that frame is on the defensive side.  Otherwise
    the metric is the least Euclidean distance from the first target row of
    that frame to a defender row of that frame, and the play record holds
    it rounded to one decimal when it is not zero. *)
Theorem coverage_tightness_at_frame_1
    (output_df : list Output.row) (nfl_df : list Nfl.row) (k : Z * Z)
    (play_df : list Input.row) (p : Play) :
  build_play output_df nfl_df k play_df = Ok p ->
  let snap_frame := filter (at_frame 1) play_df in
  let targets := filter is_target snap_frame in
  let dbs := filter is_defense snap_frame in
  (targets = [] \/ dbs = [] ->
   compute_coverage_tightness play_df = None /\ coverageTightness p = None) /\
  (forall t ts, targets = t :: ts -> dbs <> [] ->
   exists m,
     compute_coverage_tightness play_df = Some m /\
     is_minimum m (map (distance (Input.x t) (Input.y t)) dbs) /\
     (m <> 0%R -> coverageTightness p = Some (round1 m))).
Proof.
  intros Hp. apply build_play_Ok in Hp as (_ & _ & _ & _ & _ & Hcov & _).
  cbv zeta. rewrite Hcov, coverage_is_nearest. split.
  - intros H. apply nearest_defender_None in H. now rewrite H.
  - intros t ts Ht Hd.
    destruct (nearest_defender_Some _ _ _ Ht Hd) as (m & -> & Hmin & _).
    exists m. repeat split; try apply Hmin.
    apply round_if_truthy_Some.
Qed.

Lemma sqrt_sum_squares (a b d : R) :
  (0 <= d)%R -> (a ^ 2 + b ^ 2 = d * d)%R -> sqrt (a ^ 2 + b ^ 2) = d.
Proof.
  intros Hd Heq. apply sqrt_lem_1; [nra | exact Hd | lra].
Qed.

Lemma distance_eq (tx ty : R) (r : Input.row) (d : R) :
  (0 <= d)%R ->
  ((Input.x r - tx) ^ 2 + (Input.y r - ty) ^ 2 = d * d)%R ->
  distance tx ty r = d.
Proof.
  intros Hd Heq. unfold distance. now apply sqrt_sum_squares.
Qed.

Lemma distance_tracked (tx ty x y d : R) (id fr : Z) (sd rl : string) :
  (0 <= d)%R -> ((x - tx) ^ 2 + (y - ty) ^ 2 = d * d)%R ->
  distance tx ty (tracked id fr x y sd rl) = d.
Proof.
  intros Hd Heq. now apply distance_eq.
Qed.

Lemma covered_play_metric : compute_coverage_tightness covered_play = Some 3%R.
Proof.
  cbn. f_equal.
  rewrite (distance_tracked 0 0 3 0 3), (distance_tracked 0 0 0 (11 / 2) (11 / 2));
    try lra.
  unfold Rmin. destruct (Rle_dec 3 (11 / 2)); lra.
Qed.

Lemma round1_3 : round1 3 = 3%R.
Proof.
  replace 3%R with (30 / 10)%R at 1 by lra. rewrite round1_tenths. lra.
Qed.

Lemma coverage_tightness_at_frame_1_witness :
  exists p,
    build_play [] [] (2023090700, 101)%Z covered_play = Ok p /\
    compute_coverage_tightness covered_play = Some 3%R /\
    coverageTightness p = Some 3%R.
Proof.
  eexists. split; [reflexivity |].
  destruct (coverage_tightness_at_frame_1
              [] [] (2023090700, 101)%Z covered_play _ eq_refl) as [_ H].
  destruct (H _ _ eq_refl) as (m & Hm & _ & Hp); [discriminate |].
  rewrite covered_play_metric in Hm. injection Hm as <-.
  split; [exact covered_play_metric |].
  rewrite Hp by lra. now rewrite round1_3.
Defined.

(** C1, as stated, fails: with two target rows in frame 1 the metric is not
    null; the first of them is used. *)
Lemma coverage_two_targets_not_null :
  List.length (filter is_target (filter (at_frame 1) two_target_play)) = 2%nat /\
  compute_coverage_tightness two_target_play = Some 3%R /\
  exists p,
    build_play [] [] (2023090700, 101)%Z two_target_play = Ok p /\
    coverageTightness p = Some 3%R.
Proof.
  assert (H : compute_coverage_tightness two_target_play = Some 3%R).
  { cbn. f_equal. apply distance_tracked; lra. }
  split; [reflexivity |]. split; [exact H |].
  eexists. split; [reflexivity |].
  change (round_if_truthy (compute_coverage_tightness two_target_play) = Some 3%R).
  rewrite H, round_if_truthy_Some by lra. now rewrite round1_3.
Qed.

Lemma filter_map_commute {A B : Type} (p : B -> bool) (g : A -> B) (l : list A) :
  filter p (map g l) = map g (filter (fun a => p (g a)) l).
Proof.
  induction l as [| a l IH]; simpl; [reflexivity |].
  destruct (p (g a)); simpl; now rewrite IH.
Qed.

Lemma filter_all {A : Type} (p : A -> bool) (l : list A) :
  (forall a, In a l -> p a = true) -> filter p l = l.
Proof.
  induction l as [| a l IH]; simpl; intros H; [reflexivity |].
  rewrite (H a) by now left. f_equal. apply IH. intros b Hb. apply H. now right.
Qed.

Lemma nearest_defender_set_frame (fr : Z) (frame : list Input.row) :
  nearest_defender (map (set_frame fr) frame) = nearest_defender frame.
Proof.
  unfold nearest_defender. rewrite !filter_map_commute.
  change (fun a => is_target (set_frame fr a)) with is_target.
  change (fun a => is_defense (set_frame fr a)) with is_defense.
  destruct (filter is_target frame) as [| t ts]; simpl; [reflexivity |].
  destruct (filter is_defense frame) as [| d ds]; simpl; [reflexivity |].
  now rewrite map_map.
Qed.

Lemma at_frame_set_frame (fr : Z) (frame : list Input.row) :
  filter (at_frame fr) (map (set_frame fr) frame) = map (set_frame fr) frame.
Proof.
  apply filter_all. intros a Ha. apply in_map_iff in Ha as (r & <- & _).
  apply Z.eqb_refl.
Qed.

(** C2. Separation is coverage tightness evaluated on the rows of the last
    (greatest) frame index of the play's pre-event table: the function gives
    what the coverage function gives on those rows taken as the snap frame,
    the record applies the same rounding to both, and the metric is null
    when that frame has no target row or no defender row. *)
Theorem separation_is_coverage_at_last_frame
    (output_df : list Output.row) (nfl_df : list Nfl.row) (k : Z * Z)
    (play_df : list Input.row) (p : Play) (m : Z) :
  build_play output_df nfl_df k play_df = Ok p ->
  is_maximum m (map Input.frame_id play_df) ->
  let last_frame := filter (at_frame m) play_df in
  compute_separation_at_target play_df
  = compute_coverage_tightness (map (set_frame 1) last_frame) /\
  separation p
  = round_if_truthy (compute_coverage_tightness (map (set_frame 1) last_frame)) /\
  coverageTightness p = round_if_truthy (compute_coverage_tightness play_df) /\
  (filter is_target last_frame = [] \/ filter is_defense last_frame = [] <->
   compute_separation_at_target play_df = None) /\
  (filter is_target last_frame = [] \/ filter is_defense last_frame = [] ->
   separation p = None).
Proof.
  intros Hp Hm. apply build_play_Ok in Hp as (_ & _ & _ & _ & _ & Hcov & Hsep & _).
  cbv zeta. rewrite Hsep, Hcov, (separation_is_nearest _ _ Hm).
  rewrite coverage_is_nearest, at_frame_set_frame, nearest_defender_set_frame.
  repeat split; try apply nearest_defender_None.
  intros H. apply nearest_defender_None in H. now rewrite H.
Qed.

Lemma round1_4 : round1 4 = 4%R.
Proof.
  replace 4%R with (40 / 10)%R at 1 by lra. rewrite round1_tenths. lra.
Qed.

Lemma separation_is_coverage_at_last_frame_witness :
  exists p,
    build_play [] [] (2023090700, 101)%Z two_frame_play = Ok p /\
    is_maximum 2 (map Input.frame_id two_frame_play) /\
    separation p = Some 4%R /\
    coverageTightness p = Some 3%R.
Proof.
  assert (Hmax : is_maximum 2 (map Input.frame_id two_frame_play)).
  { split; simpl; intuition lia. }
  eexists. split; [reflexivity |]. split; [exact Hmax |].
  assert (Hlast : compute_coverage_tightness
                    (map (set_frame 1) (filter (at_frame 2) two_frame_play))
                  = Some 4%R).
  { cbn. f_equal. apply distance_eq; simpl; lra. }
  assert (Hsnap : compute_coverage_tightness two_frame_play = Some 3%R).
  { cbn. f_equal. apply distance_eq; simpl; lra. }
  destruct (separation_is_coverage_at_last_frame
              [] [] (2023090700, 101)%Z two_frame_play _ 2 eq_refl Hmax)
    as (_ & Hsep & Hcov & _).
  split.
  - rewrite Hsep, Hlast, round_if_truthy_Some by lra. now rewrite round1_4.
  - rewrite Hcov, Hsnap, round_if_truthy_Some by lra. now rewrite round1_3.
Defined.

(** C6, evaluated where it fails: a defender tracked at the receiver's own
    position.  Both rows are in frame 1, the functions return the distance
    0.0, and the record holds null for both metrics. *)
Theorem zero_distance_is_reported_null :
  filter is_target (filter (at_frame 1) zero_distance_play) <> [] /\
  filter is_defense (filter (at_frame 1) zero_distance_play) <> [] /\
  compute_coverage_tightness zero_distance_play = Some 0%R /\
  compute_separation_at_target zero_distance_play = Some 0%R /\
  exists p,
    build_play [] [] (2023090700, 101)%Z zero_distance_play = Ok p /\
    coverageTightness p = None /\
    separation p = None.
Proof.
  assert (Hc : compute_coverage_tightness zero_distance_play = Some 0%R).
  { cbn. f_equal. apply distance_eq; simpl; lra. }
  assert (Hs : compute_separation_at_target zero_distance_play = Some 0%R).
  { cbn. f_equal. apply distance_eq; simpl; lra. }
  split; [discriminate |]. split; [discriminate |].
  split; [exact Hc |]. split; [exact Hs |].
  eexists. split; [reflexivity |].
  change (round_if_truthy (compute_coverage_tightness zero_distance_play) = None
          /\ round_if_truthy (compute_separation_at_target zero_distance_play) = None).
  rewrite Hc, Hs. simpl. now rewrite (proj2 (truthy_false 0)).
Qed.

(** The part of the metrics' contract that the record keeps: a reported
    value is never negative, and a null stands for a missing target row, a
    missing defender row, or a distance of exactly zero. *)
Lemma reported_metrics
    (output_df : list Output.row) (nfl_df : list Nfl.row) (k : Z * Z)
    (play_df : list Input.row) (p : Play) :
  build_play output_df nfl_df k play_df = Ok p ->
  (forall d, coverageTightness p = Some d -> (0 <= d)%R) /\
  (forall d, separation p = Some d -> (0 <= d)%R) /\
  (coverageTightness p = None <->
   compute_coverage_tightness play_df = None \/
   compute_coverage_tightness play_df = Some 0%R).
Proof.
  intros Hp.
  apply build_play_Ok in Hp as (r0 & rest & Hdf & _ & _ & Hcov & Hsep & _).
  rewrite Hcov, Hsep. repeat split.
  - intros d. apply round_if_truthy_nonneg. intros m Hm.
    rewrite coverage_is_nearest in Hm.
    destruct (filter is_target (filter (at_frame 1) play_df)) as [| t ts] eqn:Et.
    + no_nearest Hm.
    + destruct (filter is_defense (filter (at_frame 1) play_df)) as [| d0 ds] eqn:Ed.
      * no_nearest Hm.
      * destruct (nearest_defender_Some _ _ _ Et) as (m' & Hm' & _ & Hpos);
          [congruence |]. congruence.
  - intros d. apply round_if_truthy_nonneg. intros m Hm.
    assert (Hmax : is_maximum
                     (fold_left Z.max (map Input.frame_id rest) (Input.frame_id r0))
                     (map Input.frame_id play_df)).
    { rewrite Hdf. apply fold_Zmax_is_maximum. }
    rewrite (separation_is_nearest _ _ Hmax) in Hm.
    set (fr := filter (at_frame _) play_df) in *.
    destruct (filter is_target fr) as [| t ts] eqn:Et.
    + no_nearest Hm.
    + destruct (filter is_defense fr) as [| d0 ds] eqn:Ed.
      * no_nearest Hm.
      * destruct (nearest_defender_Some _ _ _ Et) as (m' & Hm' & _ & Hpos);
          [congruence |]. congruence.
  - destruct (compute_coverage_tightness play_df) as [m |]; simpl; [| auto].
    destruct (truthy m) eqn:E; [discriminate |].
    apply truthy_false in E. subst. auto.
  - destruct (compute_coverage_tightness play_df) as [m |]; simpl; [| auto].
    intros [H | H]; [discriminate |]. injection H as ->.
    now rewrite (proj2 (truthy_false 0)).
Qed.

(* ------------------------------------------------------------------ *)
(** ** Sorting rows by frame *)

Section SortFacts.
Context {A : Type} (frame_of : A -> Z).

Lemma insert_row_perm (r : A) (l : list A) :
  Permutation (r :: l) (insert_row frame_of r l).
Proof.
  induction l as [| r' l IH]; simpl; [reflexivity |].
  destruct (frame_of r <=? frame_of r')%Z; [reflexivity |].
  rewrite perm_swap. now apply perm_skip.
Qed.

Lemma sort_values_perm (l : list A) :
  Permutation l (sort_values frame_of l).
Proof.
  induction l as [| r l IH]; simpl; [reflexivity |].
  rewrite <- insert_row_perm. now apply perm_skip.
Qed.

Lemma insert_row_ordered (r : A) (l : list A) :
  frame_ordered frame_of l -> frame_ordered frame_of (insert_row frame_of r l).
Proof.
  unfold frame_ordered.
  induction l as [| r' l IH]; simpl; intros Hl.
  - repeat constructor.
  - inversion Hl as [| ? ? Hl' Hall]; subst.
    destruct (frame_of r <=? frame_of r')%Z eqn:E.
    + apply Z.leb_le in E. constructor; [exact Hl |].
      constructor; [exact E |].
      eapply Forall_impl; [| exact Hall]. simpl. intros; lia.
    + apply Z.leb_gt in E. constructor; [now apply IH |].
      apply (Permutation_Forall (insert_row_perm r l)).
      constructor; [lia | exact Hall].
Qed.

Lemma sort_values_ordered (l : list A) :
  frame_ordered frame_of (sort_values frame_of l).
Proof.
  induction l as [| r l IH]; simpl; [constructor |].
  now apply insert_row_ordered.
Qed.

Lemma frame_ordered_map (l : list A) :
  frame_ordered frame_of l -> StronglySorted Z.le (map frame_of l).
Proof.
  unfold frame_ordered.
  induction 1 as [| a l Hl IH Hall]; simpl; constructor; [exact IH |].
  apply Forall_map. exact Hall.
Qed.
End SortFacts.




Lemma existsb_false_filter {A : Type} (p : A -> bool) (l : list A) :
  existsb p l = false -> filter p l = [].
Proof.
  induction l as [| a l IH]; simpl; [reflexivity |].
  destruct (p a); simpl; [discriminate | exact IH].
Qed.

(* ------------------------------------------------------------------ *)
(** ** From the list of records back to the loop bodies *)

Lemma build_play_data_In (input_df : list Input.row)
    (output_df : list Output.row) (nfl_df : list Nfl.row)
    (plays : list Play) (p : Play) :
  build_play_data input_df output_df nfl_df = Ok plays ->
  In p plays ->
  build_play output_df nfl_df (gameId p, playId p)
             (pre_event (gameId p, playId p) input_df) = Ok p.
Proof.
  unfold build_play_data. intros H Hin.
  destruct (mapM_Ok_In _ _ _ _ H Hin) as (g & Hg & Hb).
  unfold groupby_play in Hg. apply in_map_iff in Hg as (k & <- & _).
  simpl in Hb. pose proof (build_play_Ok _ _ _ _ _ Hb) as (_ & _ & _ & Hg1 & Hg2 & _).
  destruct k as [g1 g2]; simpl in *. subst. exact Hb.
Qed.

Lemma build_player_Ok (output_play_df : list Output.row) (max_input_frame : Z)
    (nfl_id : Z) (player_input_df : list Input.row) (pl : Player) :
  build_player (match output_play_df with [] => false | _ :: _ => true end)
               output_play_df max_input_frame nfl_id player_input_df = Ok pl ->
  nflId pl = nfl_id /\
  frames pl =
    map input_frame (sort_values Input.frame_id player_input_df) ++
    map (output_frame max_input_frame)
        (sort_values Output.frame_id (post_of_player nfl_id output_play_df)).
Proof.
  unfold build_player, post_of_player.
  destruct (sort_values Input.frame_id player_input_df) as [| r0 rs];
    [discriminate |].
  intros [= <-]. simpl. split; [reflexivity |].
  destruct output_play_df as [| o os]; simpl.
  - now rewrite app_nil_r.
  - match goal with
    | |- context [if ?c then _ else _] => destruct c eqn:E
    end; [reflexivity |].
    change (existsb (fun r => (Output.nfl_id r =? nfl_id)%Z) (o :: os) = false) in E.
    apply existsb_false_filter in E. simpl in E. rewrite E. simpl.
    now rewrite app_nil_r.
Qed.

Lemma players_In (output_df : list Output.row) (nfl_df : list Nfl.row)
    (k : Z * Z) (play_df : list Input.row) (p : Play) (pl : Player) :
  build_play output_df nfl_df k play_df = Ok p ->
  In pl (players p) ->
  is_maximum (numInputFrames p) (map Input.frame_id play_df) /\
  frames pl =
    map input_frame
        (sort_values Input.frame_id (pre_of_player (nflId pl) play_df)) ++
    map (output_frame (numInputFrames p))
        (sort_values Output.frame_id
           (post_of_player (nflId pl) (post_event k output_df))).
Proof.
  intros Hp Hin.
  apply build_play_Ok in Hp
    as (r0 & rest & Hdf & _ & _ & _ & _ & Hmax & _ & Hpls & _).
  split.
  - rewrite Hmax, Hdf. apply fold_Zmax_is_maximum.
  - destruct (mapM_Ok_In _ _ _ _ Hpls Hin) as (g & Hg & Hb).
    unfold groupby_player in Hg. apply in_map_iff in Hg as (id & <- & _).
    simpl in Hb. apply build_player_Ok in Hb as [-> ->]. reflexivity.
Qed.

(* ------------------------------------------------------------------ *)
(** ** Player frame sequences *)

Lemma wrap_int64_fits (z : Z) : fits_int64 z -> wrap_int64 z = z.
Proof.
  unfold fits_int64, wrap_int64, int64_min, int64_max. intros Hz.
  rewrite Z.mod_small; lia.
Qed.

Lemma int64_add_fits (a b : Z) : fits_int64 (a + b) -> int64_add a b = (a + b)%Z.
Proof. apply wrap_int64_fits. Qed.





(* ------------------------------------------------------------------ *)
(** ** Total frame count *)

(** C4 (amended). The total frame count of every play record is the greatest
    frame index of the play's pre-event rows plus the greatest frame index
    of the matched post-event rows, or plus 0 when no post-event row
    matches, added in signed 64-bit arithmetic: it is that sum whenever the
    sum fits in a signed 64-bit integer, and the sum wrapped around
    otherwise.  No player's frame sequence enters it. *)
Theorem total_frame_count
    (input_df : list Input.row) (output_df : list Output.row)
    (nfl_df : list Nfl.row) (plays : list Play) (p : Play) :
  build_play_data input_df output_df nfl_df = Ok plays ->
  In p plays ->
  let k := (gameId p, playId p) in
  exists max_pre,
    is_maximum max_pre (map Input.frame_id (pre_event k input_df)) /\
    ((post_event k output_df = [] /\
      numFrames p = wrap_int64 max_pre /\
      (fits_int64 max_pre -> numFrames p = max_pre)) \/
     (exists max_post,
         is_maximum max_post (map Output.frame_id (post_event k output_df)) /\
         numFrames p = wrap_int64 (max_pre + max_post) /\
         (fits_int64 (max_pre + max_post) ->
          numFrames p = (max_pre + max_post)%Z))).
Proof.
  intros Hdata Hp k.
  pose proof (build_play_data_In _ _ _ _ _ Hdata Hp) as Hb. fold k in Hb.
  apply build_play_Ok in Hb
    as (r0 & rest & Hdf & _ & _ & _ & _ & Hmax & Hnum & _).
  exists (numInputFrames p). split.
  - rewrite Hmax, Hdf. apply fold_Zmax_is_maximum.
  - change (get_group output_df k) with (post_event k output_df) in Hnum.
    destruct (series_max (map Output.frame_id (post_event k output_df)))
      as [m |] eqn:E.
    + right. exists m. split; [now apply series_max_spec |].
      split; [exact Hnum |]. intros Hfit. rewrite Hnum.
      now apply int64_add_fits.
    + left. split; [destruct (post_event k output_df);
                    [reflexivity | discriminate] |].
      unfold int64_add in Hnum. rewrite Z.add_0_r in Hnum.
      split; [exact Hnum |]. intros Hfit. rewrite Hnum.
      now apply wrap_int64_fits.
Qed.

Lemma total_frame_count_witness :
  exists plays p,
    build_play_data brief_input brief_output [] = Ok plays /\
    In p plays /\
    numFrames p = 3%Z /\
    Forall (fun pl => (List.length (frames pl) < 3)%nat) (players p).
Proof.
  do 2 eexists. split; [reflexivity |]. split; [now left |].
  split; [| repeat constructor].
  destruct (total_frame_count brief_input brief_output [] _ _
              eq_refl (or_introl eq_refl))
    as (m & Hm & [[Hnone _] | (m' & Hm' & _ & Hnum)]); [discriminate Hnone |].
  assert (H2 : is_maximum 2 (map Input.frame_id
                               (pre_event (2023090700, 101)%Z brief_input))).
  { split; simpl; intuition lia. }
  assert (H1 : is_maximum 1 (map Output.frame_id
                               (post_event (2023090700, 101)%Z brief_output))).
  { split; simpl; intuition lia. }
  rewrite (is_maximum_unique _ _ _ Hm H2), (is_maximum_unique _ _ _ Hm' H1) in Hnum.
  apply Hnum. unfold fits_int64, int64_min, int64_max. lia.
Defined.

(** C4, as stated, fails: with the pre-event frame index 2^63 - 1 and the
    post-event frame index 1 the total frame count is -2^63, not their
    sum. *)
Lemma total_frame_count_wraps :
  exists plays p,
    build_play_data overflow_input merge_output [] = Ok plays /\
    In p plays /\
    is_maximum int64_max
      (map Input.frame_id (pre_event (gameId p, playId p) overflow_input)) /\
    is_maximum 1
      (map Output.frame_id (post_event (gameId p, playId p) merge_output)) /\
    numFrames p = int64_min /\
    numFrames p <> (int64_max + 1)%Z.
Proof.
  do 2 eexists. split; [reflexivity |]. split; [now left |].
  split; [split; simpl; intuition lia |].
  split; [split; simpl; intuition lia |].
  split; [reflexivity | discriminate].
Qed.

(* ------------------------------------------------------------------ *)
(** ** Metadata *)

(** C5 (amended). The metadata block of a play record is present exactly
    when a play-by-play row has the record's (game id, play id), and it is
    built from the first such row: a missing down, yards to go or yards
    gained becomes 0, a missing quarter becomes 1, a missing play type
    becomes [unknown], a missing offense or defense code becomes [UNK], a
    missing shotgun flag becomes false.  When no row matches, the record has
    no metadata field. *)
Theorem metadata_defaults
    (input_df : list Input.row) (output_df : list Output.row)
    (nfl_df : list Nfl.row) (plays : list Play) (p : Play) :
  build_play_data input_df output_df nfl_df = Ok plays ->
  In p plays ->
  let rows := matching_meta (gameId p, playId p) nfl_df in
  (meta p = None <-> rows = []) /\
  (forall nfl_row rest, rows = nfl_row :: rest ->
   exists m,
     meta p = Some m /\
     (Nfl.down nfl_row = None -> down m = 0%Z) /\
     (Nfl.ydstogo nfl_row = None -> yardsToGo m = 0%Z) /\
     (Nfl.yards_gained nfl_row = None -> yardsGained m = 0%Z) /\
     (Nfl.qtr nfl_row = None -> quarter m = 1%Z) /\
     (Nfl.play_type nfl_row = None -> playType m = "unknown") /\
     (Nfl.posteam nfl_row = None -> offense m = "UNK") /\
     (Nfl.defteam nfl_row = None -> defense m = "UNK") /\
     (Nfl.shotgun nfl_row = None -> shotgun m = false) /\
     (forall v, Nfl.down nfl_row = Some v -> down m = py_int v) /\
     (forall v, Nfl.ydstogo nfl_row = Some v -> yardsToGo m = py_int v) /\
     (forall v, Nfl.yards_gained nfl_row = Some v -> yardsGained m = py_int v) /\
     (forall v, Nfl.qtr nfl_row = Some v -> quarter m = py_int v) /\
     (forall v, Nfl.play_type nfl_row = Some v -> playType m = v) /\
     (forall v, Nfl.posteam nfl_row = Some v -> offense m = v) /\
     (forall v, Nfl.defteam nfl_row = Some v -> defense m = v) /\
     (forall v, Nfl.shotgun nfl_row = Some v -> shotgun m = truthy v)).
Proof.
  intros Hdata Hp rows.
  pose proof (build_play_data_In _ _ _ _ _ Hdata Hp) as Hb.
  apply build_play_Ok in Hb
    as (_ & _ & _ & _ & _ & _ & _ & _ & _ & _ & Hmeta).
  change (filter _ nfl_df) with rows in Hmeta. rewrite Hmeta. split.
  - destruct rows; split; congruence.
  - intros nfl_row rest ->. eexists. split; [reflexivity |].
    simpl.
    repeat split; intros; 
      match goal with H : _ = _ |- _ => rewrite H end; reflexivity.
Qed.

Lemma metadata_defaults_witness :
  exists plays p m,
    build_play_data merge_input [] [blank_meta] = Ok plays /\
    In p plays /\
    meta p = Some m /\
    down m = 0%Z /\ yardsToGo m = 0%Z /\ yardsGained m = 0%Z /\
    quarter m = 1%Z /\ playType m = "unknown" /\
    offense m = "UNK" /\ defense m = "UNK" /\ shotgun m = false.
Proof.
  destruct (metadata_defaults merge_input [] [blank_meta] _ _
              eq_refl (or_introl eq_refl)) as [_ H].
  destruct (H blank_meta [] eq_refl)
    as (m & Hm & H1 & H2 & H3 & H4 & H5 & H6 & H7 & H8 & _).
  do 2 eexists. exists m. split; [reflexivity |]. split; [now left |].
  split; [exact Hm |].
  repeat split; auto.
Defined.

(** C5, as stated, fails for the quarter: a matching row whose quarter is
    missing gives quarter 1, not 0. *)
Lemma missing_quarter_is_1 :
  exists plays p m,
    build_play_data merge_input [] [blank_meta] = Ok plays /\
    In p plays /\
    matching_meta (gameId p, playId p) [blank_meta] = [blank_meta] /\
    Nfl.qtr blank_meta = None /\
    meta p = Some m /\
    quarter m = 1%Z /\ quarter m <> 0%Z.
Proof.
  do 3 eexists. split; [reflexivity |]. split; [now left |].
  split; [reflexivity |]. split; [reflexivity |]. split; [reflexivity |].
  split; [reflexivity | discriminate].
Qed.

(* ------------------------------------------------------------------ *)
(** ** Dictionaries *)

Section DictFacts.
Context {V : Type}.
Implicit Types (d : dict V) (k : string) (v : V).

Lemma dict_get_set_same k v d : dict_get k (dict_set k v d) = Some v.
Proof.
  induction d as [| [k' v'] d IH]; simpl.
  - now rewrite String.eqb_refl.
  - destruct (String.eqb k' k) eqn:E; simpl; rewrite E; auto.
Qed.

Lemma dict_get_set_other k k' v d :
  k <> k' -> dict_get k' (dict_set k v d) = dict_get k' d.
Proof.
  intros Hne. induction d as [| [k0 v0] d IH]; simpl.
  - apply String.eqb_neq in Hne. now rewrite Hne.
  - destruct (String.eqb k0 k) eqn:E; simpl; [| now rewrite IH].
    apply String.eqb_eq in E. subst k0.
    apply String.eqb_neq in Hne. now rewrite Hne.
Qed.

Lemma dict_get_None k d : dict_get k d = None <-> ~ In k (map fst d).
Proof.
  induction d as [| [k' v'] d IH]; simpl; [tauto |].
  destruct (String.eqb k' k) eqn:E.
  - apply String.eqb_eq in E. split; [discriminate | tauto].
  - apply String.eqb_neq in E. tauto.
Qed.

Lemma dict_set_keys_In k v d x :
  In x (map fst (dict_set k v d)) -> x = k \/ In x (map fst d).
Proof.
  induction d as [| [k' v'] d IH]; simpl.
  - intros [-> | []]. now left.
  - destruct (String.eqb k' k); simpl; tauto.
Qed.

Lemma dict_set_NoDup k v d :
  NoDup (map fst d) -> NoDup (map fst (dict_set k v d)).
Proof.
  induction d as [| [k' v'] d IH]; simpl; intros H.
  - repeat constructor. tauto.
  - inversion H as [| ? ? Hnotin Hnd]; subst.
    destruct (String.eqb k' k) eqn:E; simpl; [exact H |].
    constructor; [| auto].
    intros Hin. apply dict_set_keys_In in Hin as [-> | Hin]; [| tauto].
    now rewrite String.eqb_refl in E.
Qed.
End DictFacts.

(* ------------------------------------------------------------------ *)
(** ** Grouping the plays by offense *)

Lemma add_play_get (teams : dict (list Play)) (play : Play) (t : string) :
  dict_get t (add_play teams play)
  = if String.eqb (get_offense play) t
    then Some (get_or_nil t teams ++ [play])
    else dict_get t teams.
Proof.
  unfold add_play, dict_mem, get_or_nil.
  destruct (String.eqb (get_offense play) t) eqn:E.
  - apply String.eqb_eq in E. subst t.
    destruct (dict_get (get_offense play) teams) as [l |] eqn:G.
    + rewrite G. apply dict_get_set_same.
    + rewrite dict_get_set_same. apply dict_get_set_same.
  - apply String.eqb_neq in E.
    destruct (dict_get (get_offense play) teams) as [l |] eqn:G.
    + rewrite G. now apply dict_get_set_other.
    + rewrite dict_get_set_same. now rewrite !dict_get_set_other.
Qed.

Lemma add_play_NoDup (teams : dict (list Play)) (play : Play) :
  NoDup (map fst teams) -> NoDup (map fst (add_play teams play)).
Proof.
  intros H. unfold add_play.
  destruct (dict_mem _ teams); destruct (dict_get _ _);
    repeat apply dict_set_NoDup; exact H.
Qed.

Lemma fold_add_play_get (plays : list Play) (t : string) :
  forall teams,
    dict_get t (fold_left add_play plays teams)
    = match plays_of t plays with
      | [] => dict_get t teams
      | _ :: _ => Some (get_or_nil t teams ++ plays_of t plays)
      end.
Proof.
  unfold plays_of.
  induction plays as [| p plays IH]; intros teams; simpl; [reflexivity |].
  rewrite IH. unfold get_or_nil at 1. rewrite add_play_get.
  destruct (String.eqb (get_offense p) t); [| reflexivity].
  destruct (filter _ plays); [reflexivity |].
  now rewrite <- app_assoc.
Qed.

Lemma fold_add_play_NoDup (plays : list Play) :
  forall teams, NoDup (map fst teams) ->
                NoDup (map fst (fold_left add_play plays teams)).
Proof.
  induction plays as [| p plays IH]; intros teams H; simpl; [exact H |].
  apply IH. now apply add_play_NoDup.
Qed.

Lemma group_by_offense_get (plays : list Play) (t : string) :
  dict_get t (group_by_offense plays)
  = match plays_of t plays with
    | [] => None
    | _ :: _ => Some (plays_of t plays)
    end.
Proof.
  unfold group_by_offense. rewrite fold_add_play_get. reflexivity.
Qed.

(* ------------------------------------------------------------------ *)
(** ** The rollup *)

Lemma py_div_Ok (a b : R) : b <> 0%R -> py_div a b = Ok (a / b)%R.
Proof.
  intros Hb. unfold py_div. destruct (Req_dec_T b 0); [contradiction | reflexivity].
Qed.

Lemma INR_length_nonzero {A : Type} (l : list A) :
  l <> [] -> INR (List.length l) <> 0%R.
Proof.
  intros Hl. apply not_0_INR. destruct l; simpl; congruence.
Qed.

Lemma INR_max_1_nonzero (n : nat) : INR (Nat.max 1 n) <> 0%R.
Proof.
  apply not_0_INR. lia.
Qed.

(** No division of [team_tendency] fails on a team that has a play. *)
Lemma team_tendency_Ok (team_plays : list Play) :
  team_plays <> [] ->
  exists e,
    team_tendency team_plays = Ok e /\
    totalPlays e = List.length team_plays /\
    passRate (overall e)
    = (INR (List.length (filter (playType_is "pass") team_plays))
       / INR (List.length team_plays))%R /\
    runRate (overall e)
    = (INR (List.length (filter (playType_is "run") team_plays))
       / INR (List.length team_plays))%R /\
    avgYards (overall e)
    = (IZR (Zsum (map get_yardsGained team_plays))
       / INR (List.length team_plays))%R /\
    avgCoverage (overall e)
    = (Rsum (map coverage_or_0 (filter has_coverage team_plays))
       / INR (Nat.max 1 (List.length (filter has_coverage team_plays))))%R.
Proof.
  intros Hne. pose proof (INR_length_nonzero _ Hne) as Hlen.
  unfold team_tendency.
  destruct team_plays as [| p l]; [congruence |].
  rewrite !py_div_Ok by (exact Hlen || apply INR_max_1_nonzero).
  simpl bind. eexists. split; [reflexivity |]. simpl. repeat split.
Qed.

Lemma tendency_loop (items : dict (list Play)) :
  NoDup (map fst items) ->
  forall acc,
  exists tendencies,
    fold_left tendency_step items (Ok acc) = Ok tendencies /\
    forall t,
      dict_get t tendencies
      = match dict_get t items with
        | Some l =>
            if (List.length l <? 10)%nat then dict_get t acc
            else ok_value (team_tendency l)
        | None => dict_get t acc
        end.
Proof.
  induction items as [| [k l] items IH]; simpl; intros Hnd acc.
  - exists acc. split; reflexivity.
  - inversion Hnd as [| ? ? Hnotin Hnd']; subst.
    destruct (List.length l <? 10)%nat eqn:Esmall.
    + destruct (IH Hnd' acc) as (d & Hd & Hget). exists d. split; [exact Hd |].
      intros t. rewrite Hget. destruct (String.eqb k t) eqn:E; [| reflexivity].
      apply String.eqb_eq in E. subst t.
      now rewrite (proj2 (dict_get_None k items) Hnotin), Esmall.
    + assert (Hne : l <> []).
      { apply Nat.ltb_ge in Esmall. long_is_nonempty. }
      destruct (team_tendency_Ok l Hne) as (e & He & _). rewrite He. simpl.
      destruct (IH Hnd' (dict_set k e acc)) as (d & Hd & Hget).
      exists d. split; [exact Hd |].
      intros t. rewrite Hget. destruct (String.eqb k t) eqn:E.
      * apply String.eqb_eq in E. subst t.
        rewrite (proj2 (dict_get_None k items) Hnotin), Esmall, He.
        apply dict_get_set_same.
      * apply String.eqb_neq in E.
        rewrite dict_get_set_other by exact E. reflexivity.
Qed.

(** The rollup never raises, and its entry for a team is decided by the
    team's plays alone. *)
Lemma compute_tendencies_get (plays : list Play) :
  exists tendencies,
    compute_tendencies plays = Ok tendencies /\
    forall t,
      dict_get t tendencies
      = if (List.length (plays_of t plays) <? 10)%nat then None
        else ok_value (team_tendency (plays_of t plays)).
Proof.
  unfold compute_tendencies. destruct plays as [| p0 ps].
  - exists []. split; reflexivity.
  - set (plays := p0 :: ps).
    assert (Hnd : NoDup (map fst (group_by_offense plays))).
    { apply fold_add_play_NoDup. constructor. }
    destruct (tendency_loop _ Hnd []) as (d & Hd & Hget).
    exists d. split; [exact Hd |].
    intros t. rewrite Hget, group_by_offense_get.
    destruct (plays_of t plays); reflexivity.
Qed.

Lemma compute_tendencies_entry (plays : list Play) (tendencies : dict Tendency)
    (team : string) (e : Tendency) :
  compute_tendencies plays = Ok tendencies ->
  dict_get team tendencies = Some e ->
  (10 <= List.length (plays_of team plays))%nat /\
  team_tendency (plays_of team plays) = Ok e.
Proof.
  intros Hc Hg. destruct (compute_tendencies_get plays) as (d & Hd & Hget).
  rewrite Hc in Hd. injection Hd as <-. rewrite Hget in Hg.
  destruct (List.length (plays_of team plays) <? 10)%nat eqn:E; [discriminate |].
  apply Nat.ltb_ge in E. split; [exact E |].
  destruct (team_tendency (plays_of team plays)); simpl in Hg; congruence.
Qed.

(** C8. The rollup is computed for every list of play records, and it has
    an entry for an offense-team code exactly when at least 10 plays of the
    list are that team's: with 9 plays there is none, with 10 there is one. *)
Theorem tendency_sample_size (plays : list Play) :
  exists tendencies,
    compute_tendencies plays = Ok tendencies /\
    (forall team,
        dict_mem team tendencies = true <->
        (10 <= List.length (plays_of team plays))%nat) /\
    (forall team,
        List.length (plays_of team plays) = 9%nat ->
        dict_get team tendencies = None) /\
    (forall team,
        List.length (plays_of team plays) = 10%nat ->
        exists e, dict_get team tendencies = Some e).
Proof.
  destruct (compute_tendencies_get plays) as (d & Hd & Hget).
  exists d. split; [exact Hd |].
  assert (Hbig : forall team,
             (10 <= List.length (plays_of team plays))%nat ->
             exists e, dict_get team d = Some e).
  { intros team Hlen. rewrite Hget.
    rewrite (proj2 (Nat.ltb_ge _ _) Hlen).
    destruct (team_tendency_Ok (plays_of team plays)) as (e & -> & _).
    - long_is_nonempty.
    - now exists e. }
  split; [| split].
  - intros team. unfold dict_mem. split.
    + rewrite Hget.
      destruct (List.length (plays_of team plays) <? 10)%nat eqn:E;
        [discriminate |].
      intros _. now apply Nat.ltb_ge.
    + intros Hlen. destruct (Hbig team Hlen) as (e & ->). reflexivity.
  - intros team Hlen. now rewrite Hget, Hlen.
  - intros team Hlen. apply Hbig. lia.
Qed.

Lemma filter_lengths_disjoint {A : Type} (a b : A -> bool) (l : list A) :
  (forall x, a x = true -> b x = false) ->
  (List.length (filter a l) + List.length (filter b l) <= List.length l)%nat.
Proof.
  intros Hab. induction l as [| x l IH]; simpl; [lia |].
  destruct (a x) eqn:Ea.
  - rewrite (Hab x Ea). simpl. lia.
  - destruct (b x); simpl; lia.
Qed.

Lemma pass_is_not_run (p : Play) :
  playType_is "pass" p = true -> playType_is "run" p = false.
Proof.
  unfold playType_is. destruct (meta p) as [m |]; [| reflexivity].
  intros H. apply String.eqb_eq in H. now rewrite H.
Qed.

Lemma rates_sum_le_1 (a b n : nat) :
  (a + b <= n)%nat -> (0 < n)%nat -> (INR a / INR n + INR b / INR n <= 1)%R.
Proof.
  intros Hab Hn. apply le_INR in Hab. rewrite plus_INR in Hab.
  apply lt_INR in Hn. simpl in Hn.
  replace (INR a / INR n + INR b / INR n)%R with ((INR a + INR b) / INR n)%R
    by (field; lra).
  apply Rmult_le_reg_r with (INR n); [lra |].
  unfold Rdiv. rewrite Rmult_assoc, Rinv_l by lra. lra.
Qed.

(** C9. For every team kept in the rollup, the pass rate is the number of
    the team's plays whose play type is [pass] over the number of all its
    plays, and the run rate is the number whose play type is [run] over the
    same total; their sum is at most 1, and it is below 1 for a team with a
    play of another type. *)
Theorem pass_and_run_rates :
  (forall plays tendencies team e,
      compute_tendencies plays = Ok tendencies ->
      dict_get team tendencies = Some e ->
      let team_plays := plays_of team plays in
      totalPlays e = List.length team_plays /\
      passRate (overall e)
      = (INR (List.length (filter (playType_is "pass") team_plays))
         / INR (List.length team_plays))%R /\
      runRate (overall e)
      = (INR (List.length (filter (playType_is "run") team_plays))
         / INR (List.length team_plays))%R /\
      (passRate (overall e) + runRate (overall e) <= 1)%R) /\
  (exists tendencies e,
      compute_tendencies ten_plays = Ok tendencies /\
      dict_get "KC" tendencies = Some e /\
      passRate (overall e) = (6 / 10)%R /\
      runRate (overall e) = (3 / 10)%R /\
      (passRate (overall e) + runRate (overall e))%R <> 1%R).
Proof.
  assert (Hall : forall plays tendencies team e,
      compute_tendencies plays = Ok tendencies ->
      dict_get team tendencies = Some e ->
      let team_plays := plays_of team plays in
      totalPlays e = List.length team_plays /\
      passRate (overall e)
      = (INR (List.length (filter (playType_is "pass") team_plays))
         / INR (List.length team_plays))%R /\
      runRate (overall e)
      = (INR (List.length (filter (playType_is "run") team_plays))
         / INR (List.length team_plays))%R /\
      (passRate (overall e) + runRate (overall e) <= 1)%R).
  { intros plays tendencies team e Hc Hg team_plays.
    destruct (compute_tendencies_entry _ _ _ _ Hc Hg) as [Hlen He].
    fold team_plays in Hlen, He.
    destruct (team_tendency_Ok team_plays) as (e' & He' & Ht & Hp & Hr & _).
    { long_is_nonempty. }
    rewrite He in He'. injection He' as <-.
    repeat (split; [assumption |]).
    rewrite Hp, Hr. apply rates_sum_le_1; [| lia].
    apply filter_lengths_disjoint, pass_is_not_run. }
  split; [exact Hall |].
  destruct (compute_tendencies_get ten_plays) as (d & Hd & Hget).
  specialize (Hget "KC").
  change (plays_of "KC" ten_plays) with ten_plays in Hget.
  change (List.length ten_plays <? 10)%nat with false in Hget.
  destruct (team_tendency_Ok ten_plays) as (e & He & _); [discriminate |].
  rewrite He in Hget. simpl in Hget.
  exists d, e. split; [exact Hd |]. split; [exact Hget |].
  destruct (Hall ten_plays d "KC" e Hd Hget) as (_ & Hp & Hr & _).
  change (plays_of "KC" ten_plays) with ten_plays in Hp, Hr.
  change (List.length (filter (playType_is "pass") ten_plays)) with 6%nat in Hp.
  change (List.length (filter (playType_is "run") ten_plays)) with 3%nat in Hr.
  change (List.length ten_plays) with 10%nat in Hp, Hr.
  simpl INR in Hp, Hr. rewrite Hp, Hr. repeat split; lra.
Qed.

Lemma filter_none {A : Type} (p : A -> bool) (l : list A) :
  (forall a, In a l -> p a = false) -> filter p l = [].
Proof.
  induction l as [| a l IH]; simpl; intros H; [reflexivity |].
  rewrite (H a) by now left. apply IH. intros b Hb. apply H. now right.
Qed.

Lemma has_coverage_false (p : Play) :
  coverageTightness p = None \/ coverageTightness p = Some 0%R ->
  has_coverage p = false.
Proof.
  unfold has_coverage. intros [-> | ->]; [reflexivity |].
  now apply truthy_false.
Qed.

(** C10. The rollup raises no division error, and in every entry the average
    coverage is the sum over the team's plays with a non-null, non-zero
    coverage tightness divided by their number clamped to at least 1; a team
    without such a play gets the average 0. *)
Theorem average_coverage_denominator (plays : list Play) :
  exists tendencies,
    compute_tendencies plays = Ok tendencies /\
    forall team e,
      dict_get team tendencies = Some e ->
      let covered := filter has_coverage (plays_of team plays) in
      let denominator := Nat.max 1 (List.length covered) in
      (1 <= denominator)%nat /\
      INR denominator <> 0%R /\
      py_div (Rsum (map coverage_or_0 covered)) (INR denominator)
      = Ok (avgCoverage (overall e)) /\
      avgCoverage (overall e)
      = (Rsum (map coverage_or_0 covered) / INR denominator)%R /\
      ((forall p, In p (plays_of team plays) ->
                  coverageTightness p = None \/ coverageTightness p = Some 0%R) ->
       avgCoverage (overall e) = 0%R).
Proof.
  destruct (compute_tendencies_get plays) as (d & Hd & Hget).
  exists d. split; [exact Hd |].
  intros team e Hg covered denominator.
  destruct (compute_tendencies_entry _ _ _ _ Hd Hg) as [Hlen He].
  destruct (team_tendency_Ok (plays_of team plays))
    as (e' & He' & _ & _ & _ & _ & Hc).
  { long_is_nonempty. }
  rewrite He in He'. injection He' as <-.
  fold covered in Hc. fold denominator in Hc.
  pose proof (INR_max_1_nonzero (List.length covered)) as Hnz.
  fold denominator in Hnz.
  split; [unfold denominator; lia |]. split; [exact Hnz |].
  split; [rewrite Hc; now apply py_div_Ok |]. split; [exact Hc |].
  intros Hnone. rewrite Hc. unfold denominator, covered.
  rewrite filter_none by (intros p Hp; now apply has_coverage_false, Hnone).
  simpl. unfold Rsum. simpl. lra.
Qed.

(** The sample-size example of the specification, on plays without
    metadata, which are grouped under [UNK]. *)
Lemma nine_and_ten_plays :
  (exists tendencies,
      compute_tendencies (repeat bare_play 9) = Ok tendencies /\
      dict_get "UNK" tendencies = None) /\
  (exists tendencies e,
      compute_tendencies (repeat bare_play 10) = Ok tendencies /\
      dict_get "UNK" tendencies = Some e /\
      totalPlays e = 10%nat /\
      avgCoverage (overall e) = 0%R).
Proof.
  split.
  - destruct (compute_tendencies_get (repeat bare_play 9)) as (d & Hd & Hget).
    exists d. split; [exact Hd |]. now rewrite Hget.
  - destruct (compute_tendencies_get (repeat bare_play 10)) as (d & Hd & Hget).
    specialize (Hget "UNK").
    change (plays_of "UNK" (repeat bare_play 10)) with (repeat bare_play 10) in Hget.
    destruct (team_tendency_Ok (repeat bare_play 10))
      as (e & He & Ht & _ & _ & _ & Hc); [discriminate |].
    change (List.length (repeat bare_play 10) <? 10)%nat with false in Hget.
    rewrite He in Hget. simpl in Hget.
    exists d, e. split; [exact Hd |]. split; [exact Hget |].
    split; [exact Ht |].
    rewrite Hc. simpl. unfold Rsum. simpl. lra.
Qed.

(* ------------------------------------------------------------------ *)
(** ** Group keys *)

Section GroupKeysFacts.
Context {K : Type} (ltb eqb : K -> K -> bool).
Hypothesis eqb_eq : forall a b, eqb a b = true <-> a = b.
Hypothesis ltb_irrefl : forall a, ltb a a = false.
Hypothesis ltb_trans :
  forall a b c, ltb a b = true -> ltb b c = true -> ltb a c = true.
Hypothesis ltb_total :
  forall a b, eqb a b = false -> ltb a b = false -> ltb b a = true.

Lemma insert_key_In (k x : K) (ks : list K) :
  In x (insert_key ltb eqb k ks) <-> x = k \/ In x ks.
Proof.
  induction ks as [| k' ks IH]; simpl.
  - intuition congruence.
  - destruct (eqb k k') eqn:E.
    + apply eqb_eq in E. subst k'. simpl. intuition congruence.
    + destruct (ltb k k'); simpl; [intuition congruence |].
      rewrite IH. intuition congruence.
Qed.

Lemma group_keys_In (x : K) (l : list K) :
  In x (group_keys ltb eqb l) <-> In x l.
Proof.
  induction l as [| k l IH]; simpl; [tauto |].
  rewrite insert_key_In, IH. intuition congruence.
Qed.

Lemma insert_key_sorted (k : K) (ks : list K) :
  StronglySorted (fun a b => ltb a b = true) ks ->
  StronglySorted (fun a b => ltb a b = true) (insert_key ltb eqb k ks).
Proof.
  induction ks as [| k' ks IH]; simpl; intros Hs.
  - repeat constructor.
  - inversion Hs as [| ? ? Hs' Hall]; subst.
    destruct (eqb k k') eqn:E; [exact Hs |].
    destruct (ltb k k') eqn:L.
    + constructor; [exact Hs |]. constructor; [exact L |].
      eapply Forall_impl; [| exact Hall]. simpl. intros c Hc.
      now apply ltb_trans with k'.
    + constructor; [now apply IH |].
      apply Forall_forall. intros x Hx. apply insert_key_In in Hx as [-> | Hx].
      * now apply ltb_total.
      * rewrite Forall_forall in Hall. now apply Hall.
Qed.

Lemma group_keys_sorted (l : list K) :
  StronglySorted (fun a b => ltb a b = true) (group_keys ltb eqb l).
Proof.
  induction l as [| k l IH]; simpl; [constructor |].
  now apply insert_key_sorted.
Qed.

Lemma ltb_sorted_NoDup (l : list K) :
  StronglySorted (fun a b => ltb a b = true) l -> NoDup l.
Proof.
  induction 1 as [| a l Hl IH Hall]; constructor; [| exact IH].
  intros Hin. rewrite Forall_forall in Hall. specialize (Hall a Hin).
  now rewrite ltb_irrefl in Hall.
Qed.
End GroupKeysFacts.

Lemma key_eqb_eq (a b : Z * Z) : key_eqb a b = true <-> a = b.
Proof.
  unfold key_eqb. destruct a as [a1 a2], b as [b1 b2]. simpl.
  rewrite andb_true_iff, !Z.eqb_eq. split; [intros [-> ->]; reflexivity |].
  intros [= -> ->]. auto.
Qed.

Lemma key_ltb_lt (a b : Z * Z) : key_ltb a b = true <-> key_lt a b.
Proof.
  unfold key_ltb, key_lt.
  rewrite orb_true_iff, andb_true_iff, !Z.ltb_lt, Z.eqb_eq. tauto.
Qed.

Lemma key_ltb_irrefl (a : Z * Z) : key_ltb a a = false.
Proof.
  apply not_true_is_false. rewrite key_ltb_lt. unfold key_lt. lia.
Qed.

Lemma key_ltb_trans (a b c : Z * Z) :
  key_ltb a b = true -> key_ltb b c = true -> key_ltb a c = true.
Proof.
  rewrite !key_ltb_lt. unfold key_lt. lia.
Qed.

Lemma key_ltb_total (a b : Z * Z) :
  key_eqb a b = false -> key_ltb a b = false -> key_ltb b a = true.
Proof.
  intros He Hl. apply key_ltb_lt.
  apply not_true_iff_false in He, Hl. rewrite key_eqb_eq in He.
  rewrite key_ltb_lt in Hl. unfold key_lt in *.
  destruct a as [a1 a2], b as [b1 b2]; simpl in *.
  assert (a1 <> b1 \/ a2 <> b2) by (destruct (Z.eq_dec a1 b1); [right | left]; congruence).
  lia.
Qed.

Lemma play_keys_In (input_df : list Input.row) (k : Z * Z) :
  In k (group_keys key_ltb key_eqb (map input_key input_df)) <->
  exists r, In r input_df /\ input_key r = k.
Proof.
  rewrite (group_keys_In key_ltb key_eqb key_eqb_eq), in_map_iff.
  split; intros (r & H1 & H2); exists r; auto.
Qed.

Lemma strongly_sorted_weaken {A : Type} (P Q : A -> A -> Prop) (l : list A) :
  (forall a b, P a b -> Q a b) -> StronglySorted P l -> StronglySorted Q l.
Proof.
  intros HPQ. induction 1 as [| a l Hl IH Hall]; constructor; [exact IH |].
  eapply Forall_impl; [| exact Hall]. apply HPQ.
Qed.

Lemma play_keys_sorted (input_df : list Input.row) :
  StronglySorted key_lt (group_keys key_ltb key_eqb (map input_key input_df)).
Proof.
  eapply strongly_sorted_weaken;
    [| apply (group_keys_sorted key_ltb key_eqb key_eqb_eq key_ltb_trans key_ltb_total)].
  intros a b. apply key_ltb_lt.
Qed.

(* ------------------------------------------------------------------ *)
(** ** Loops that may raise *)

Lemma mapM_Ok_map {A B C : Type} (g : A -> result B) (h : A -> C) (h' : B -> C)
    (l : list A) :
  (forall a b, In a l -> g a = Ok b -> h' b = h a) ->
  forall bs, mapM g l = Ok bs -> map h' bs = map h l.
Proof.
  induction l as [| a l IH]; simpl; intros Hg bs H.
  - now injection H as <-.
  - apply bind_Ok in H as (b & Hb & H).
    apply bind_Ok in H as (bs0 & Hbs0 & H). injection H as <-. simpl.
    f_equal; [apply Hg; auto | apply IH; auto].
Qed.

Lemma mapM_total {A B : Type} (g : A -> result B) (l : list A) :
  (forall a, In a l -> exists b, g a = Ok b) -> exists bs, mapM g l = Ok bs.
Proof.
  induction l as [| a l IH]; simpl; intros Hg; [now exists [] |].
  destruct (Hg a) as (b & ->); [now left |].
  destruct IH as (bs & ->); [intros; apply Hg; now right |].
  simpl. now exists (b :: bs).
Qed.

Lemma mapM_Raise {A B : Type} (g : A -> result B) (l : list A) (e : exn) :
  mapM g l = Raise e -> exists a, In a l /\ g a = Raise e.
Proof.
  induction l as [| a l IH]; simpl; [discriminate |].
  destruct (g a) as [b | e'] eqn:E; simpl.
  - destruct (mapM g l) as [bs | e'']; simpl; [discriminate |].
    intros [= <-]. destruct IH as (a' & Ha' & Hr); [reflexivity |].
    exists a'. auto.
  - intros [= <-]. exists a. auto.
Qed.

Lemma mapM_Ok_all {A B : Type} (g : A -> result B) (l : list A) (bs : list B) :
  mapM g l = Ok bs -> forall a, In a l -> exists b, g a = Ok b.
Proof.
  revert bs. induction l as [| a0 l IH]; simpl; intros bs H a Ha; [destruct Ha |].
  apply bind_Ok in H as (b & Hb & H). apply bind_Ok in H as (bs0 & Hbs0 & _).
  destruct Ha as [<- | Ha]; [now exists b | eauto].
Qed.

Lemma filter_nonempty {A : Type} (p : A -> bool) (l : list A) (a : A) :
  In a l -> p a = true -> filter p l <> [].
Proof.
  intros Hin Hp Hnil.
  assert (H : In a (filter p l)) by (apply filter_In; auto).
  rewrite Hnil in H. destruct H.
Qed.

Lemma sort_values_nonempty {A : Type} (frame_of : A -> Z) (l : list A) :
  l <> [] -> sort_values frame_of l <> [].
Proof.
  intros Hl Hnil. pose proof (sort_values_perm frame_of l) as Hp.
  rewrite Hnil in Hp. apply Permutation_sym, Permutation_nil in Hp. contradiction.
Qed.

(** A player group is never empty, so the player loop raises nothing. *)
Lemma build_players_total (has_output : bool) (output_play_df : list Output.row)
    (max_input_frame : Z) (play_df : list Input.row) :
  exists pls,
    mapM (fun g => build_player has_output output_play_df max_input_frame
                                (fst g) (snd g))
         (groupby_player play_df) = Ok pls.
Proof.
  apply mapM_total. intros g Hg.
  unfold groupby_player in Hg. apply in_map_iff in Hg as (id & <- & Hid).
  rewrite (group_keys_In Z.ltb Z.eqb Z.eqb_eq) in Hid.
  apply in_map_iff in Hid as (r & Hr & Hin). simpl.
  unfold build_player.
  destruct (sort_values Input.frame_id
              (filter (fun r0 => (Input.nfl_id r0 =? id)%Z) play_df))
    as [| r0 rs] eqn:E.
  - exfalso. revert E. apply sort_values_nonempty.
    apply (filter_nonempty _ _ r Hin). now apply Z.eqb_eq.
  - eexists. reflexivity.
Qed.

(** What one turn of the play loop returns or raises. *)
Lemma build_play_outcome (output_df : list Output.row) (nfl_df : list Nfl.row)
    (k : Z * Z) (first_row : Input.row) (rest : list Input.row) :
  match Input.absolute_yardline_number first_row with
  | Some _ => exists p, build_play output_df nfl_df k (first_row :: rest) = Ok p
  | None => build_play output_df nfl_df k (first_row :: rest) = Raise ValueError
  end.
Proof.
  unfold build_play. destruct k as [game_id play_id].
  match goal with
  | |- context [mapM ?g (groupby_player ?df)] =>
      match g with
      | (fun g0 => build_player ?h ?o ?m _ _) =>
          destruct (build_players_total h o m df) as (pls & Hpls)
      end
  end.
  rewrite Hpls. simpl.
  destruct (Input.absolute_yardline_number first_row); simpl;
    [eexists |]; reflexivity.
Qed.

Lemma play_group_first_row (input_df : list Input.row) (k : Z * Z) :
  In k (group_keys key_ltb key_eqb (map input_key input_df)) ->
  exists r rest,
    pre_event k input_df = r :: rest /\ In r input_df /\ input_key r = k.
Proof.
  intros Hk. apply play_keys_In in Hk as (r0 & Hr0 & Hkey).
  destruct (pre_event k input_df) as [| r rest] eqn:E.
  - exfalso. revert E. apply (filter_nonempty _ _ r0 Hr0). now apply key_eqb_eq.
  - exists r, rest. split; [reflexivity |].
    assert (Hin : In r (pre_event k input_df)) by (rewrite E; now left).
    apply filter_In in Hin as [Hin Hkr]. apply key_eqb_eq in Hkr. auto.
Qed.

(** X1. When the play builder returns, its records carry the distinct
    (game id, play id) keys of the pre-event table in strictly increasing
    lexicographic order: no key has two records, and every pre-event row's
    key has one. *)
Theorem one_record_per_play
    (input_df : list Input.row) (output_df : list Output.row)
    (nfl_df : list Nfl.row) (plays : list Play) :
  build_play_data input_df output_df nfl_df = Ok plays ->
  let keys := map (fun p => (gameId p, playId p)) plays in
  StronglySorted key_lt keys /\
  NoDup keys /\
  (forall k, In k keys <-> exists r, In r input_df /\ input_key r = k).
Proof.
  intros H keys.
  assert (Hk : keys = group_keys key_ltb key_eqb (map input_key input_df)).
  { unfold keys, build_play_data, groupby_play in *.
    erewrite (mapM_Ok_map _ fst); [| | exact H].
    - rewrite map_map. simpl. apply map_id.
    - intros g p _ Hg. apply build_play_Ok in Hg as (_ & _ & _ & Hg1 & Hg2 & _).
      rewrite Hg1, Hg2. now destruct (fst g). }
  rewrite Hk. split; [apply play_keys_sorted |]. split.
  - apply (ltb_sorted_NoDup key_ltb key_ltb_irrefl).
    apply (group_keys_sorted key_ltb key_eqb key_eqb_eq key_ltb_trans key_ltb_total).
  - apply play_keys_In.
Qed.

Lemma one_record_per_play_witness :
  exists plays,
    build_play_data two_play_input [] [] = Ok plays /\
    map (fun p => (gameId p, playId p)) plays
    = [(2023090700, 101); (2023090700, 202)]%Z /\
    NoDup (map (fun p => (gameId p, playId p)) plays).
Proof.
  eexists. split; [reflexivity |]. split; [reflexivity |].
  exact (proj1 (proj2 (one_record_per_play two_play_input [] [] _ eq_refl))).
Defined.

(** X2. On a pre-event table with a row, the play builder raises nothing
    but [ValueError], and it raises it exactly when the first row of some
    play has no yardline (the [int] of a missing value); the player loop
    never indexes an empty group. *)
Theorem build_play_data_raises_on_missing_yardline
    (input_df : list Input.row) (output_df : list Output.row)
    (nfl_df : list Nfl.row) :
  input_df <> [] ->
  (forall e,
      build_play_data input_df output_df nfl_df = Raise e ->
      e = ValueError /\
      exists r, In r input_df /\ first_row_of_play input_df r /\
                Input.absolute_yardline_number r = None) /\
  ((forall r, In r input_df -> first_row_of_play input_df r ->
              Input.absolute_yardline_number r <> None) ->
   exists plays, build_play_data input_df output_df nfl_df = Ok plays) /\
  ((exists r, In r input_df /\ first_row_of_play input_df r /\
              Input.absolute_yardline_number r = None) ->
   build_play_data input_df output_df nfl_df = Raise ValueError).
Proof.
  intros _.
  assert (Hraise : forall e,
      build_play_data input_df output_df nfl_df = Raise e ->
      e = ValueError /\
      exists r, In r input_df /\ first_row_of_play input_df r /\
                Input.absolute_yardline_number r = None).
  { intros e H. unfold build_play_data in H.
    apply mapM_Raise in H as (g & Hg & Hr).
    unfold groupby_play in Hg. apply in_map_iff in Hg as (k & <- & Hk).
    simpl in Hr. destruct (play_group_first_row _ _ Hk) as (r & rest & E & Hin & Hkey).
    change (filter _ input_df) with (pre_event k input_df) in Hr. rewrite E in Hr.
    pose proof (build_play_outcome output_df nfl_df k r rest) as Ho.
    destruct (Input.absolute_yardline_number r) eqn:Ey.
    - destruct Ho as (p & Hp). congruence.
    - split; [congruence |]. exists r. repeat split; auto.
      exists rest. now rewrite Hkey. }
  assert (Hok : (forall r, In r input_df -> first_row_of_play input_df r ->
                           Input.absolute_yardline_number r <> None) ->
                exists plays, build_play_data input_df output_df nfl_df = Ok plays).
  { intros Hy. unfold build_play_data. apply mapM_total. intros g Hg.
    unfold groupby_play in Hg. apply in_map_iff in Hg as (k & <- & Hk). simpl.
    destruct (play_group_first_row _ _ Hk) as (r & rest & E & Hin & Hkey).
    change (filter _ input_df) with (pre_event k input_df). rewrite E.
    pose proof (build_play_outcome output_df nfl_df k r rest) as Ho.
    destruct (Input.absolute_yardline_number r) eqn:Ey; [exact Ho |].
    exfalso. apply (Hy r Hin); [| exact Ey]. exists rest. now rewrite Hkey. }
  split; [exact Hraise |]. split; [exact Hok |].
  intros (r & Hin & Hfirst & Hy).
  destruct (build_play_data input_df output_df nfl_df) as [plays | e] eqn:E.
  - exfalso. unfold build_play_data in E.
    destruct Hfirst as (rest & Hpre).
    assert (Hk : In (input_key r)
                    (group_keys key_ltb key_eqb (map input_key input_df))).
    { apply play_keys_In. now exists r. }
    pose proof (build_play_outcome output_df nfl_df (input_key r) r rest) as Ho.
    rewrite Hy in Ho.
    assert (Hg : In (input_key r, pre_event (input_key r) input_df)
                    (groupby_play input_df)).
    { unfold groupby_play. apply in_map_iff. exists (input_key r). auto. }
    destruct (mapM_Ok_all _ _ _ E _ Hg) as (p & Hp).
    cbn [fst snd] in Hp. rewrite Hpre in Hp. congruence.
  - destruct (Hraise e eq_refl) as [-> _]. reflexivity.
Qed.

Lemma build_play_data_raises_on_missing_yardline_witness :
  build_play_data [tracked_in 101 11 1 None] [] [] = Raise ValueError /\
  exists plays, build_play_data two_play_input [] [] = Ok plays.
Proof.
  split.
  - apply (build_play_data_raises_on_missing_yardline
             [tracked_in 101 11 1 None] [] []); [discriminate |].
    exists (tracked_in 101 11 1 None).
    split; [now left |]. split; [now exists [] | reflexivity].
  - apply (build_play_data_raises_on_missing_yardline two_play_input [] []);
      [discriminate |].
    intros r [<- | [<- | [<- | []]]] _; discriminate.
Defined.

(* ------------------------------------------------------------------ *)
(** ** Players of a record *)

Lemma Z_ltb_trans (a b c : Z) :
  (a <? b)%Z = true -> (b <? c)%Z = true -> (a <? c)%Z = true.
Proof. rewrite !Z.ltb_lt. lia. Qed.

Lemma Z_ltb_total (a b : Z) :
  (a =? b)%Z = false -> (a <? b)%Z = false -> (b <? a)%Z = true.
Proof. rewrite Z.eqb_neq, Z.ltb_ge, Z.ltb_lt. lia. Qed.

Lemma player_ids_are_group_keys
    (output_df : list Output.row) (nfl_df : list Nfl.row) (k : Z * Z)
    (play_df : list Input.row) (p : Play) :
  build_play output_df nfl_df k play_df = Ok p ->
  map nflId (players p) = group_keys Z.ltb Z.eqb (map Input.nfl_id play_df).
Proof.
  intros Hp.
  apply build_play_Ok in Hp as (_ & _ & _ & _ & _ & _ & _ & _ & _ & Hpls & _).
  erewrite (mapM_Ok_map _ fst); [| | exact Hpls].
  - unfold groupby_player. rewrite map_map. simpl. apply map_id.
  - intros g pl _ Hg. now apply build_player_Ok in Hg as [-> _].
Qed.

(** X3. The players of a play record are the distinct player ids of the
    play's pre-event rows, one player per id, in strictly increasing id
    order. *)
Theorem one_player_per_id
    (input_df : list Input.row) (output_df : list Output.row)
    (nfl_df : list Nfl.row) (plays : list Play) (p : Play) :
  build_play_data input_df output_df nfl_df = Ok plays ->
  In p plays ->
  let ids := map nflId (players p) in
  strictly_increasing ids /\
  NoDup ids /\
  (forall id,
      In id ids <->
      exists r, In r (pre_event (gameId p, playId p) input_df) /\
                Input.nfl_id r = id).
Proof.
  intros Hdata Hp ids.
  pose proof (build_play_data_In _ _ _ _ _ Hdata Hp) as Hb.
  unfold ids. rewrite (player_ids_are_group_keys _ _ _ _ _ Hb).
  pose proof (group_keys_sorted Z.ltb Z.eqb Z.eqb_eq Z_ltb_trans Z_ltb_total
                (map Input.nfl_id (pre_event (gameId p, playId p) input_df)))
    as Hs.
  split; [| split].
  - unfold strictly_increasing. eapply strongly_sorted_weaken; [| exact Hs].
    intros a b. apply Z.ltb_lt.
  - exact (ltb_sorted_NoDup Z.ltb Z.ltb_irrefl _ Hs).
  - intros id. rewrite (group_keys_In Z.ltb Z.eqb Z.eqb_eq), in_map_iff.
    split; intros (r & H1 & H2); exists r; auto.
Qed.

Lemma one_player_per_id_witness :
  exists plays p,
    build_play_data two_play_input [] [] = Ok plays /\
    In p plays /\
    map nflId (players p) = [11; 12]%Z /\
    strictly_increasing (map nflId (players p)).
Proof.
  do 2 eexists. split; [reflexivity |]. split; [now left |].
  split; [reflexivity |].
  exact (proj1 (one_player_per_id two_play_input [] [] _ _
                  eq_refl (or_introl eq_refl))).
Defined.

(** X4. No tracked frame is lost or repeated: a player of a play record has
    at least one frame, exactly one frame per pre-event row of the player
    in the play plus one per row of the player in the matched post-event
    group, and every frame after the pre-event ones has speed 0. *)
Theorem player_frames_complete
    (input_df : list Input.row) (output_df : list Output.row)
    (nfl_df : list Nfl.row) (plays : list Play) (p : Play) (pl : Player) :
  build_play_data input_df output_df nfl_df = Ok plays ->
  In p plays ->
  In pl (players p) ->
  let k := (gameId p, playId p) in
  let pre := pre_of_player (nflId pl) (pre_event k input_df) in
  let post := post_of_player (nflId pl) (post_event k output_df) in
  pre <> [] /\
  List.length (frames pl) = (List.length pre + List.length post)%nat /\
  Forall (fun fr => fs fr = 0%R) (skipn (List.length pre) (frames pl)).
Proof.
  intros Hdata Hp Hpl k pre post.
  pose proof (build_play_data_In _ _ _ _ _ Hdata Hp) as Hb. fold k in Hb.
  destruct (players_In _ _ _ _ _ _ Hb Hpl) as [_ Hfr].
  fold pre in Hfr. fold post in Hfr.
  pose proof (Permutation_length (sort_values_perm Input.frame_id pre)) as L1.
  pose proof (Permutation_length (sort_values_perm Output.frame_id post)) as L2.
  split; [| split].
  - assert (Hid : In (nflId pl) (map nflId (players p))) by now apply in_map.
    rewrite (player_ids_are_group_keys _ _ _ _ _ Hb) in Hid.
    rewrite (group_keys_In Z.ltb Z.eqb Z.eqb_eq) in Hid.
    apply in_map_iff in Hid as (r & Hr & Hin).
    apply (filter_nonempty _ _ r Hin). now apply Z.eqb_eq.
  - rewrite Hfr, length_app, !length_map. lia.
  - rewrite Hfr, skipn_app, length_map, <- L1, Nat.sub_diag.
    rewrite skipn_all2 by (rewrite length_map; lia). simpl.
    apply Forall_map, Forall_forall. reflexivity.
Qed.

Lemma player_frames_complete_witness :
  exists plays p pl,
    build_play_data merge_input merge_output [] = Ok plays /\
    In p plays /\ In pl (players p) /\
    List.length (frames pl) = 2%nat /\
    Forall (fun fr => fs fr = 0%R) (skipn 1 (frames pl)).
Proof.
  do 3 eexists. split; [reflexivity |].
  split; [now left |]. split; [now left |].
  destruct (player_frames_complete merge_input merge_output [] _ _ _
              eq_refl (or_introl eq_refl) (or_introl eq_refl))
    as (_ & Hlen & Hs).
  split; [exact Hlen | exact Hs].
Defined.

(* ------------------------------------------------------------------ *)
(** ** Play-level fields of a record *)

Lemma build_play_Ok_fields (output_df : list Output.row) (nfl_df : list Nfl.row)
    (k : Z * Z) (input_play_df : list Input.row) (p : Play) :
  build_play output_df nfl_df k input_play_df = Ok p ->
  exists first_row rest v,
    input_play_df = first_row :: rest /\
    Input.absolute_yardline_number first_row = Some v /\
    yardline p = py_int v /\
    fieldZone p = get_field_zone (Some v) /\
    direction p = Input.play_direction first_row /\
    ballLandX p = Input.ball_land_x first_row /\
    ballLandY p = Input.ball_land_y first_row /\
    numOutputFrames p =
      match series_max (map Output.frame_id (post_event k output_df)) with
      | Some m => m
      | None => 0%Z
      end.
Proof.
  unfold build_play. destruct k as [game_id play_id].
  destruct input_play_df as [| first_row rest]; [discriminate |].
  intros H. apply bind_Ok in H as (ps & Hps & H).
  apply bind_Ok in H as (yl & Hyl & H). injection H as <-.
  destruct (Input.absolute_yardline_number first_row) as [v |] eqn:Ey;
    [| discriminate].
  injection Hyl as <-.
  exists first_row, rest, v. simpl. repeat split; auto.
  change (get_group output_df (game_id, play_id))
    with (post_event (game_id, play_id) output_df).
  now destruct (post_event (game_id, play_id) output_df).
Qed.

Lemma py_int_le (v : R) (n : Z) : (0 <= n)%Z -> (v <= IZR n)%R -> (py_int v <= n)%Z.
Proof.
  intros Hn Hv. unfold py_int. destruct (Rle_dec 0 v) as [Hpos | Hneg].
  - destruct (base_Int_part v) as [Hle _].
    apply le_IZR. lra.
  - assert (H : (0 <= Int_part (- v))%Z) by (apply Int_part_nonneg; lra). lia.
Qed.

Lemma py_int_ge (v : R) (n : Z) : (0 <= n)%Z -> (IZR n <= v)%R -> (n <= py_int v)%Z.
Proof.
  intros Hn Hv. apply IZR_le in Hn. unfold py_int.
  destruct (Rle_dec 0 v) as [Hpos | Hneg]; [| lra].
  destruct (base_Int_part v) as [_ Hgt].
  assert (H : (IZR n - 1 < IZR (Int_part v))%R) by lra.
  rewrite <- minus_IZR in H. apply lt_IZR in H. lia.
Qed.

(** X5. The three frame counts of a play record agree: the total is the
    pre-event count plus the post-event count added in signed 64-bit
    arithmetic, which is their sum whenever the sum fits in a signed 64-bit
    integer; the pre-event count is the greatest pre-event frame index, and
    the post-event count is 0 when no post-event row matches the play and
    the greatest matched post-event frame index otherwise. *)
Theorem frame_counts_agree
    (input_df : list Input.row) (output_df : list Output.row)
    (nfl_df : list Nfl.row) (plays : list Play) (p : Play) :
  build_play_data input_df output_df nfl_df = Ok plays ->
  In p plays ->
  let k := (gameId p, playId p) in
  numFrames p = wrap_int64 (numInputFrames p + numOutputFrames p) /\
  (fits_int64 (numInputFrames p + numOutputFrames p) ->
   numFrames p = (numInputFrames p + numOutputFrames p)%Z) /\
  is_maximum (numInputFrames p) (map Input.frame_id (pre_event k input_df)) /\
  (post_event k output_df = [] -> numOutputFrames p = 0%Z) /\
  (post_event k output_df <> [] ->
   is_maximum (numOutputFrames p) (map Output.frame_id (post_event k output_df))).
Proof.
  intros Hdata Hp k.
  pose proof (build_play_data_In _ _ _ _ _ Hdata Hp) as Hb. fold k in Hb.
  pose proof (build_play_Ok _ _ _ _ _ Hb)
    as (r0 & rest & Hdf & _ & _ & _ & _ & Hmax & Hnum & _).
  pose proof (build_play_Ok_fields _ _ _ _ _ Hb)
    as (_ & _ & _ & _ & _ & _ & _ & _ & _ & _ & Hout).
  change (get_group output_df k) with (post_event k output_df) in Hnum.
  rewrite <- Hout in Hnum.
  split; [exact Hnum |].
  split; [intros Hfit; rewrite Hnum; now apply int64_add_fits |].
  split; [rewrite Hmax, Hdf; apply fold_Zmax_is_maximum |].
  split.
  - intros Hnil. now rewrite Hout, Hnil.
  - intros Hne. rewrite Hout.
    destruct (series_max _) as [m |] eqn:E; [now apply series_max_spec |].
    destruct (post_event k output_df); [congruence | discriminate].
Qed.

Lemma frame_counts_agree_witness :
  exists plays p,
    build_play_data brief_input brief_output [] = Ok plays /\
    In p plays /\
    numFrames p = (numInputFrames p + numOutputFrames p)%Z /\
    numInputFrames p = 2%Z /\ numOutputFrames p = 1%Z.
Proof.
  do 2 eexists. split; [reflexivity |]. split; [now left |].
  split; [| split; reflexivity].
  apply (frame_counts_agree brief_input brief_output [] _ _
           eq_refl (or_introl eq_refl)).
  unfold fits_int64, int64_min, int64_max. simpl. lia.
Defined.

(** X6. A play record never has the field zone [unknown]: a play without a
    yardline raises before the record is made.  The zone is one of the
    three values of the filter block, and it agrees with the record's
    integer yardline: at most 20 in the red zone, from 20 to 50 in midfield,
    at least 50 in own territory. *)
Theorem record_field_zone
    (input_df : list Input.row) (output_df : list Output.row)
    (nfl_df : list Nfl.row) (plays : list Play) (p : Play) :
  build_play_data input_df output_df nfl_df = Ok plays ->
  In p plays ->
  fieldZone p <> "unknown" /\
  In (fieldZone p) field_zone_filter /\
  (fieldZone p = "redzone" -> (yardline p <= 20)%Z) /\
  (fieldZone p = "midfield" -> (20 <= yardline p <= 50)%Z) /\
  (fieldZone p = "own_territory" -> (50 <= yardline p)%Z).
Proof.
  intros Hdata Hp.
  pose proof (build_play_data_In _ _ _ _ _ Hdata Hp) as Hb.
  apply build_play_Ok_fields in Hb
    as (r0 & rest & v & _ & _ & -> & -> & _).
  unfold get_field_zone, field_zone_filter.
  destruct (Rle_dec v 20) as [H20 | H20]; [| destruct (Rle_dec v 50) as [H50 | H50]];
    (split; [discriminate |]); (split; [simpl; tauto |]);
    repeat split; intros; try discriminate.
  - apply py_int_le; [lia | lra].
  - apply py_int_ge; [lia | lra].
  - apply py_int_le; [lia | lra].
  - apply py_int_ge; [lia | lra].
Qed.

Lemma record_field_zone_witness :
  exists plays p,
    build_play_data two_play_input [] [] = Ok plays /\
    In p plays /\
    fieldZone p = "own_territory" /\ (50 <= yardline p)%Z.
Proof.
  do 2 eexists. split; [reflexivity |]. split; [now left |].
  destruct (record_field_zone two_play_input [] [] _ _
              eq_refl (or_introl eq_refl)) as (_ & _ & _ & _ & H).
  assert (Hz : get_field_zone (Some 60%R) = "own_territory").
  { unfold get_field_zone.
    destruct (Rle_dec 60 20); [lra |]. destruct (Rle_dec 60 50); [lra |].
    reflexivity. }
  split; [exact Hz | exact (H Hz)].
Defined.



Lemma build_player_Ok_identity (has_output : bool)
    (output_play_df : list Output.row) (max_input_frame : Z) (nfl_id : Z)
    (player_input_df : list Input.row) (pl : Player) :
  build_player has_output output_play_df max_input_frame nfl_id player_input_df
  = Ok pl ->
  exists r rs,
    sort_values Input.frame_id player_input_df = r :: rs /\
    nflId pl = nfl_id /\
    name pl = Input.player_name r /\
    position pl = Input.player_position r /\
    side pl = Input.player_side r /\
    role pl = Input.player_role r /\
    team pl = (if String.eqb (Input.player_side r) "Offense"
               then "away" else "home").
Proof.
  unfold build_player.
  destruct (sort_values Input.frame_id player_input_df) as [| r rs];
    [discriminate |].
  intros [= <-]. exists r, rs. simpl. repeat split.
Qed.

(** X8. The name, position, side and role of a player of a play record are
    those of one of the player's pre-event rows in the play, a row with the
    least frame index; the team is [away] exactly when that side is
    [Offense] and [home] otherwise. *)
Theorem player_identity
    (input_df : list Input.row) (output_df : list Output.row)
    (nfl_df : list Nfl.row) (plays : list Play) (p : Play) (pl : Player) :
  build_play_data input_df output_df nfl_df = Ok plays ->
  In p plays ->
  In pl (players p) ->
  let pre := pre_of_player (nflId pl) (pre_event (gameId p, playId p) input_df) in
  (exists r,
      In r pre /\
      (forall r', In r' pre -> (Input.frame_id r <= Input.frame_id r')%Z) /\
      name pl = Input.player_name r /\
      position pl = Input.player_position r /\
      side pl = Input.player_side r /\
      role pl = Input.player_role r) /\
  (team pl = "away" <-> side pl = "Offense") /\
  (team pl = "home" <-> side pl <> "Offense").
Proof.
  intros Hdata Hp Hpl pre.
  pose proof (build_play_data_In _ _ _ _ _ Hdata Hp) as Hb.
  apply build_play_Ok in Hb as (_ & _ & _ & _ & _ & _ & _ & _ & _ & Hpls & _).
  destruct (mapM_Ok_In _ _ _ _ Hpls Hpl) as (g & Hg & Hbp).
  unfold groupby_player in Hg. apply in_map_iff in Hg as (id & <- & _).
  simpl in Hbp.
  apply build_player_Ok_identity in Hbp
    as (r & rs & Hsort & Hid & Hn & Hpos & Hside & Hrole & Hteam).
  unfold pre, pre_of_player. rewrite Hid.
  set (rows := filter _ (pre_event _ input_df)) in *.
  pose proof (sort_values_perm Input.frame_id rows) as Hperm.
  pose proof (sort_values_ordered Input.frame_id rows) as Hord.
  rewrite Hsort in Hperm, Hord.
  split.
  - exists r. split; [apply (Permutation_in _ (Permutation_sym Hperm)); now left |].
    split; [| auto].
    intros r' Hr'. apply (Permutation_in _ Hperm) in Hr'.
    destruct Hr' as [<- | Hr']; [lia |].
    inversion Hord as [| ? ? _ Hall]; subst.
    rewrite Forall_forall in Hall. now apply Hall.
  - rewrite Hteam, Hside.
    destruct (String.eqb (Input.player_side r) "Offense") eqn:E.
    + apply String.eqb_eq in E. split; split; intros; congruence.
    + apply String.eqb_neq in E. split; split; intros; congruence.
Qed.

Lemma player_identity_witness :
  exists plays p pl,
    build_play_data covered_play [] [] = Ok plays /\
    In p plays /\ In pl (players p) /\
    side pl = "Defense" /\ team pl = "home".
Proof.
  do 3 eexists. split; [reflexivity |].
  split; [now left |]. split; [right; now left |].
  split; [reflexivity |].
  apply (player_identity covered_play [] [] _ _ _
           eq_refl (or_introl eq_refl) (or_intror (or_introl eq_refl))).
  discriminate.
Defined.

(* ------------------------------------------------------------------ *)
(** ** More on the rollup *)

Lemma tendency_loop_NoDup (items : dict (list Play)) :
  forall acc tendencies,
    fold_left tendency_step items (Ok acc) = Ok tendencies ->
    NoDup (map fst acc) -> NoDup (map fst tendencies).
Proof.
  induction items as [| [k l] items IH]; simpl; intros acc d H Hnd.
  - now injection H as <-.
  - destruct (List.length l <? 10)%nat; [eauto |].
    destruct (team_tendency l) as [e | err]; simpl in H.
    + eapply IH; [exact H |]. now apply dict_set_NoDup.
    + exfalso. clear -H. induction items as [| i items IH']; simpl in H;
        [discriminate | auto].
Qed.

Lemma dict_get_In {V : Type} (d : dict V) (k : string) (v : V) :
  NoDup (map fst d) -> In (k, v) d -> dict_get k d = Some v.
Proof.
  induction d as [| [k' v'] d IH]; simpl; intros Hnd Hin; [destruct Hin |].
  inversion Hnd as [| ? ? Hnotin Hnd']; subst.
  destruct Hin as [[= -> ->] | Hin].
  - now rewrite String.eqb_refl.
  - destruct (String.eqb k' k) eqn:E; [| auto].
    apply String.eqb_eq in E. subst k'.
    exfalso. apply Hnotin. change k with (fst (k, v)). now apply in_map.
Qed.

Lemma compute_tendencies_NoDup (plays : list Play) (tendencies : dict Tendency) :
  compute_tendencies plays = Ok tendencies -> NoDup (map fst tendencies).
Proof.
  unfold compute_tendencies. destruct plays as [| p0 ps].
  - intros [= <-]. constructor.
  - intros H. eapply tendency_loop_NoDup; [exact H | constructor].
Qed.

(** X9. The rollup names every team at most once, and each of its entries
    stands for at least 10 plays of the list: the entry's play count is the
    number of plays of that team, and some play of the list is that team's. *)
Theorem tendency_teams_distinct (plays : list Play) (tendencies : dict Tendency) :
  compute_tendencies plays = Ok tendencies ->
  NoDup (map fst tendencies) /\
  forall team e,
    In (team, e) tendencies ->
    (10 <= totalPlays e)%nat /\
    totalPlays e = List.length (plays_of team plays) /\
    exists p, In p plays /\ get_offense p = team.
Proof.
  intros Hc. pose proof (compute_tendencies_NoDup _ _ Hc) as Hnd.
  split; [exact Hnd |]. intros team e Hin.
  pose proof (dict_get_In _ _ _ Hnd Hin) as Hg.
  destruct (compute_tendencies_entry _ _ _ _ Hc Hg) as [Hlen He].
  destruct (team_tendency_Ok (plays_of team plays)) as (e' & He' & Ht & _).
  { long_is_nonempty. }
  rewrite He in He'. injection He' as <-.
  split; [lia |]. split; [exact Ht |].
  destruct (plays_of team plays) as [| p ps] eqn:E; [simpl in Hlen; lia |].
  assert (Hp : In p (plays_of team plays)) by (rewrite E; now left).
  apply filter_In in Hp as [Hp Ho]. apply String.eqb_eq in Ho. eauto.
Qed.

Lemma tendency_teams_distinct_witness :
  exists tendencies,
    compute_tendencies ten_plays = Ok tendencies /\
    NoDup (map fst tendencies).
Proof.
  destruct (compute_tendencies_get ten_plays) as (d & Hd & _).
  exists d. split; [exact Hd |].
  exact (proj1 (tendency_teams_distinct ten_plays d Hd)).
Defined.

(** X10. The entry of a team depends on that team's plays alone: two play
    lists that hold the same plays of a team, in the same order, give the
    team the same entry (or both none), whatever the other teams' plays. *)
Theorem tendency_entry_is_local
    (plays plays' : list Play) (tendencies tendencies' : dict Tendency)
    (team : string) :
  compute_tendencies plays = Ok tendencies ->
  compute_tendencies plays' = Ok tendencies' ->
  plays_of team plays = plays_of team plays' ->
  dict_get team tendencies = dict_get team tendencies'.
Proof.
  intros Hc Hc' Heq.
  destruct (compute_tendencies_get plays) as (d & Hd & Hget).
  destruct (compute_tendencies_get plays') as (d' & Hd' & Hget').
  rewrite Hc in Hd. injection Hd as <-. rewrite Hc' in Hd'. injection Hd' as <-.
  now rewrite Hget, Hget', Heq.
Qed.

Lemma tendency_entry_is_local_witness :
  exists tendencies tendencies',
    compute_tendencies ten_plays = Ok tendencies /\
    compute_tendencies (bare_play :: ten_plays ++ [typed_play "DEN" "run"])
    = Ok tendencies' /\
    dict_get "KC" tendencies = dict_get "KC" tendencies'.
Proof.
  destruct (compute_tendencies_get ten_plays) as (d & Hd & _).
  destruct (compute_tendencies_get
              (bare_play :: ten_plays ++ [typed_play "DEN" "run"]))
    as (d' & Hd' & _).
  exists d, d'. split; [exact Hd |]. split; [exact Hd' |].
  exact (tendency_entry_is_local _ _ _ _ "KC" Hd Hd' eq_refl).
Defined.

(* ------------------------------------------------------------------ *)
(** ** The pipeline of [main] *)

Lemma main_Ok (input_df : list Input.row) (output_df : list Output.row)
    (nfl_df : list Nfl.row) (doc : Document) :
  main input_df output_df nfl_df = Ok doc ->
  build_play_data input_df output_df nfl_df = Ok (docPlays doc) /\
  compute_tendencies (docPlays doc) = Ok (docTendencies doc) /\
  filterFieldZone (docFilters doc) = field_zone_filter.
Proof.
  unfold main. intros H. apply bind_Ok in H as (plays & Hplays & H).
  apply bind_Ok in H as (t & Ht & H). injection H as <-. simpl. auto.
Qed.

Lemma fold_Rplus_pos (l : list R) :
  (forall v, In v l -> (0 < v)%R) ->
  forall acc, (acc <= fold_left Rplus l acc)%R /\
              (l <> [] -> (acc < fold_left Rplus l acc)%R).
Proof.
  induction l as [| a l IH]; simpl; intros Hpos acc.
  - split; [lra | congruence].
  - assert (Ha : (0 < a)%R) by (apply Hpos; now left).
    destruct (IH (fun v Hv => Hpos v (or_intror Hv)) (acc + a)%R) as [Hle _].
    split; [lra | intros _; lra].
Qed.

(** A coverage value that the record builder stores and the rollup counts is
    positive. *)
Lemma counted_coverage_positive
    (input_df : list Input.row) (output_df : list Output.row)
    (nfl_df : list Nfl.row) (plays : list Play) (p : Play) :
  build_play_data input_df output_df nfl_df = Ok plays ->
  In p plays ->
  has_coverage p = true ->
  (0 < coverage_or_0 p)%R.
Proof.
  intros Hdata Hp Hc.
  pose proof (build_play_data_In _ _ _ _ _ Hdata Hp) as Hb.
  destruct (reported_metrics _ _ _ _ _ Hb) as (Hpos & _).
  unfold has_coverage, coverage_or_0 in *.
  destruct (coverageTightness p) as [v |]; [| discriminate].
  rewrite Hc. apply truthy_true in Hc. specialize (Hpos v eq_refl). lra.
Qed.

(** X11. In the document that [main] builds, the average coverage of every
    team of the rollup is never negative, and it is 0 exactly when none of
    the team's play records has a coverage tightness other than null
    and 0. *)
Theorem document_average_coverage
    (input_df : list Input.row) (output_df : list Output.row)
    (nfl_df : list Nfl.row) (doc : Document) (team : string) (e : Tendency) :
  main input_df output_df nfl_df = Ok doc ->
  dict_get team (docTendencies doc) = Some e ->
  (0 <= avgCoverage (overall e))%R /\
  (avgCoverage (overall e) = 0%R <->
   forall p, In p (plays_of team (docPlays doc)) ->
             coverageTightness p = None \/ coverageTightness p = Some 0%R).
Proof.
  intros Hmain Hg. apply main_Ok in Hmain as (Hdata & Hc & _).
  destruct (compute_tendencies_entry _ _ _ _ Hc Hg) as [Hlen He].
  destruct (team_tendency_Ok (plays_of team (docPlays doc)))
    as (e' & He' & _ & _ & _ & _ & Havg).
  { long_is_nonempty. }
  rewrite He in He'. injection He' as <-.
  set (covered := filter has_coverage (plays_of team (docPlays doc))) in *.
  assert (Hpos : forall v, In v (map coverage_or_0 covered) -> (0 < v)%R).
  { intros v Hv. apply in_map_iff in Hv as (p & <- & Hp).
    apply filter_In in Hp as [Hp Hcov]. apply filter_In in Hp as [Hp _].
    now apply (counted_coverage_positive _ _ _ _ _ Hdata Hp). }
  destruct (fold_Rplus_pos _ Hpos 0%R) as [Hsum Hsum'].
  fold (Rsum (map coverage_or_0 covered)) in Hsum, Hsum'.
  assert (Hden : (0 < INR (Nat.max 1 (List.length covered)))%R)
    by (apply lt_0_INR; lia).
  split.
  - rewrite Havg. apply Rmult_le_pos; [exact Hsum |].
    left. now apply Rinv_0_lt_compat.
  - split.
    + intros Hzero p Hp.
      destruct (has_coverage p) eqn:Hcov.
      * exfalso.
        assert (Hne : map coverage_or_0 covered <> []).
        { assert (Hin : In p covered) by (apply filter_In; auto).
          destruct covered; [destruct Hin | discriminate]. }
        specialize (Hsum' Hne). rewrite Havg in Hzero.
        assert (0 < Rsum (map coverage_or_0 covered)
                    / INR (Nat.max 1 (List.length covered)))%R
          by (apply Rdiv_lt_0_compat; assumption).
        lra.
      * unfold has_coverage in Hcov.
        destruct (coverageTightness p) as [v |]; [| now left].
        apply truthy_false in Hcov. subst. now right.
    + intros Hnone. rewrite Havg. unfold covered.
      rewrite filter_none by (intros p Hp; now apply has_coverage_false, Hnone).
      simpl. unfold Rsum. simpl. lra.
Qed.

Lemma main_Ok_intro (input_df : list Input.row) (output_df : list Output.row)
    (nfl_df : list Nfl.row) (plays : list Play) (tendencies : dict Tendency) :
  build_play_data input_df output_df nfl_df = Ok plays ->
  compute_tendencies plays = Ok tendencies ->
  exists doc,
    main input_df output_df nfl_df = Ok doc /\
    docPlays doc = plays /\ docTendencies doc = tendencies.
Proof.
  intros Hb Hc. unfold main. rewrite Hb. simpl. rewrite Hc. simpl.
  eexists. split; [reflexivity |]. split; reflexivity.
Qed.

Lemma document_average_coverage_witness :
  exists doc e,
    main ten_play_input [] [] = Ok doc /\
    dict_get "UNK" (docTendencies doc) = Some e /\
    (0 <= avgCoverage (overall e))%R.
Proof.
  assert (Hb : exists plays, build_play_data ten_play_input [] [] = Ok plays /\
                             plays_of "UNK" plays = plays)
    by (eexists; split; reflexivity).
  destruct Hb as (plays & Hb & Hunk).
  assert (Hlen : List.length plays = 10%nat).
  { unfold build_play_data in Hb.
    pose proof (mapM_Ok_map _ (fun _ => tt) (fun _ => tt) _
                            (fun _ _ _ _ => eq_refl) _ Hb) as Hm.
    apply (f_equal (@List.length unit)) in Hm.
    rewrite !length_map in Hm. exact Hm. }
  destruct (compute_tendencies_get plays) as (d & Hd & Hget).
  destruct (main_Ok_intro _ _ _ _ _ Hb Hd) as (doc & Hdoc & Hp & Ht).
  specialize (Hget "UNK"). rewrite Hunk, Hlen in Hget. simpl in Hget.
  destruct (team_tendency_Ok plays) as (e & He & _).
  { intros ->. discriminate Hlen. }
  rewrite He in Hget. simpl in Hget. rewrite <- Ht in Hget.
  exists doc, e. split; [exact Hdoc |]. split; [exact Hget |].
  exact (proj1 (document_average_coverage _ _ _ _ _ _ Hdoc Hget)).
Defined.

(** X13. When the greatest frame index of a play's pre-event rows is 1, the
    last frame is the snap frame, and separation equals coverage tightness,
    in the two functions and in the play record. *)
Theorem separation_is_coverage_on_single_frame
    (input_df : list Input.row) (output_df : list Output.row)
    (nfl_df : list Nfl.row) (plays : list Play) (p : Play) :
  build_play_data input_df output_df nfl_df = Ok plays ->
  In p plays ->
  let play_df := pre_event (gameId p, playId p) input_df in
  is_maximum 1 (map Input.frame_id play_df) ->
  compute_separation_at_target play_df = compute_coverage_tightness play_df /\
  separation p = coverageTightness p.
Proof.
  intros Hdata Hp play_df Hmax.
  pose proof (build_play_data_In _ _ _ _ _ Hdata Hp) as Hb. fold play_df in Hb.
  apply build_play_Ok in Hb as (_ & _ & _ & _ & _ & Hcov & Hsep & _).
  assert (H : compute_separation_at_target play_df
              = compute_coverage_tightness play_df).
  { now rewrite (separation_is_nearest _ _ Hmax), coverage_is_nearest. }
  split; [exact H |]. now rewrite Hcov, Hsep, H.
Qed.

Lemma separation_is_coverage_on_single_frame_witness :
  exists plays p,
    build_play_data covered_play [] [] = Ok plays /\
    In p plays /\
    separation p = coverageTightness p.
Proof.
  do 2 eexists. split; [reflexivity |]. split; [now left |].
  apply (separation_is_coverage_on_single_frame covered_play [] [] _ _
           eq_refl (or_introl eq_refl)).
  split; simpl; intuition lia.
Defined.

(* ------------------------------------------------------------------ *)
(** ** The tendency script *)

Lemma round_half_even_le (v : R) (n : Z) :
  (v <= IZR n)%R -> (round_half_even v <= n)%Z.
Proof.
  intros Hv. destruct (base_Int_part v) as [Hle Hgt].
  assert (Hn : (Int_part v <= n)%Z) by (apply le_IZR; lra).
  unfold round_half_even, frac_part.
  destruct (Rlt_dec _ _) as [_ | Hfr]; [exact Hn |].
  assert (Hlt : (Int_part v < n)%Z).
  { apply lt_IZR. lra. }
  destruct (Rlt_dec _ _); [lia |]. destruct (Z.even _); lia.
Qed.

Lemma round3_nonneg (v : R) : (0 <= v)%R -> (0 <= round3 v)%R.
Proof.
  intros Hv. unfold round3.
  assert (H : (0 <= round_half_even (v * 1000))%Z)
    by (apply round_half_even_nonneg; lra).
  apply IZR_le in H. lra.
Qed.

Lemma round3_le_1 (v : R) : (v <= 1)%R -> (round3 v <= 1)%R.
Proof.
  intros Hv. unfold round3.
  assert (H : (round_half_even (v * 1000) <= 1000)%Z)
    by (apply round_half_even_le; lra).
  apply IZR_le in H. lra.
Qed.

Lemma round3_IZR (n : Z) : round3 (IZR n) = IZR n.
Proof.
  unfold round3. rewrite <- mult_IZR, round_half_even_IZR, mult_IZR. lra.
Qed.

Lemma ratio_bounds (a b : nat) :
  (a <= b)%nat -> (0 < b)%nat -> (0 <= INR a / INR b <= 1)%R.
Proof.
  intros Hab Hb. apply le_INR in Hab. apply lt_0_INR in Hb.
  pose proof (pos_INR a) as Ha. split.
  - apply Rmult_le_pos; [exact Ha |]. left. now apply Rinv_0_lt_compat.
  - apply Rmult_le_reg_r with (INR b); [exact Hb |].
    unfold Rdiv. rewrite Rmult_assoc, Rinv_l by lra. lra.
Qed.

Lemma filter_length_le {A : Type} (p : A -> bool) (l : list A) :
  (List.length (filter p l) <= List.length l)%nat.
Proof.
  induction l as [| a l IH]; simpl; [lia |]. destruct (p a); simpl; lia.
Qed.

Lemma tendency_pass_is_not_run (r : BuildTendencies.row) :
  BuildTendencies.play_type_is "pass" r = true ->
  BuildTendencies.play_type_is "run" r = false.
Proof.
  unfold BuildTendencies.play_type_is.
  destruct (BuildTendencies.play_type r) as [v |]; [| reflexivity].
  intros H. apply String.eqb_eq in H. now rewrite H.
Qed.

(** The statistics of a table with a pass or a run play. *)
Lemma BuildTendencies_compute_Some (plays : list BuildTendencies.row) :
  let pass_plays := filter (BuildTendencies.play_type_is "pass") plays in
  let run_plays := filter (BuildTendencies.play_type_is "run") plays in
  let pc := List.length pass_plays in
  let total := (pc + List.length run_plays)%nat in
  let share (l : string) :=
    if (0 <? pc)%nat
    then round3 (INR (List.length
                        (filter (BuildTendencies.pass_location_is l) pass_plays))
                 / INR pc)
    else 0%R in
  total <> 0%nat ->
  exists st,
    BuildTendencies.compute_tendencies plays = Ok (Some st) /\
    BuildTendencies.sampleSize st = total /\
    BuildTendencies.passRate st = round3 (INR pc / INR total) /\
    BuildTendencies.runRate st
    = round3 (INR (List.length run_plays) / INR total) /\
    BuildTendencies.passLeft st = share "left" /\
    BuildTendencies.passMiddle st = share "middle" /\
    BuildTendencies.passRight st = share "right" /\
    BuildTendencies.shotgunRate st
    = round3 (INR (List.length (filter BuildTendencies.shotgun_is_1 plays))
              / INR total).
Proof.
  intros pass_plays run_plays pc total share Htotal.
  unfold BuildTendencies.compute_tendencies.
  fold pass_plays run_plays. fold pc. fold total.
  assert (Hplays : (List.length plays =? 0)%nat = false).
  { apply Nat.eqb_neq. intros Hz. apply length_zero_iff_nil in Hz.
    subst plays. now apply Htotal. }
  rewrite Hplays, (proj2 (Nat.eqb_neq _ _) Htotal).
  assert (Hden : INR total <> 0%R) by now apply not_0_INR.
  unfold share. destruct (0 <? pc)%nat eqn:Epc.
  - assert (Hpc : INR pc <> 0%R).
    { apply Nat.ltb_lt in Epc. apply not_0_INR. lia. }
    repeat (first [rewrite py_div_Ok by assumption | progress cbn [bind]]).
    eexists. split; [reflexivity |]. simpl. repeat split.
  - repeat (first [rewrite py_div_Ok by assumption | progress cbn [bind]]).
    eexists. split; [reflexivity |]. simpl. repeat split.
Qed.

(** X14. The tendency script's [compute_tendencies] raises for no table, and
    it returns [None] exactly when the table has no play whose play type is
    [pass] or [run]; an empty table is one such. *)
Theorem tendencies_none_without_pass_or_run (plays : list BuildTendencies.row) :
  exists res,
    BuildTendencies.compute_tendencies plays = Ok res /\
    (res = None <->
     forall r, In r plays ->
               BuildTendencies.play_type r <> Some "pass" /\
               BuildTendencies.play_type r <> Some "run").
Proof.
  set (pass_plays := filter (BuildTendencies.play_type_is "pass") plays).
  set (run_plays := filter (BuildTendencies.play_type_is "run") plays).
  assert (Hiff : forall t r,
             BuildTendencies.play_type_is t r = true <->
             BuildTendencies.play_type r = Some t).
  { intros t r. unfold BuildTendencies.play_type_is.
    destruct (BuildTendencies.play_type r) as [v |].
    - rewrite String.eqb_eq. split; congruence.
    - split; discriminate. }
  destruct (Nat.eq_dec (List.length pass_plays + List.length run_plays) 0)
    as [Hz | Hnz].
  - exists None. split.
    + unfold BuildTendencies.compute_tendencies.
      destruct (List.length plays =? 0)%nat; [reflexivity |].
      fold pass_plays run_plays. now rewrite Hz.
    + split; [| reflexivity]. intros _ r Hr.
      assert (Hp : pass_plays = []) by (apply length_zero_iff_nil; lia).
      assert (Hr' : run_plays = []) by (apply length_zero_iff_nil; lia).
      split; intros Ht; apply Hiff in Ht.
      * eapply (filter_nonempty _ _ r Hr Ht). exact Hp.
      * eapply (filter_nonempty _ _ r Hr Ht). exact Hr'.
  - destruct (BuildTendencies_compute_Some plays Hnz) as (st & Hst & _).
    exists (Some st). split; [exact Hst |].
    split; [discriminate |]. intros Hnone. exfalso. apply Hnz.
    assert (Hp : pass_plays = []).
    { apply filter_none. intros r Hr. apply not_true_is_false.
      rewrite Hiff. now apply Hnone. }
    assert (Hr' : run_plays = []).
    { apply filter_none. intros r Hr. apply not_true_is_false.
      rewrite Hiff. now apply Hnone. }
    now rewrite Hp, Hr'.
Qed.

Lemma tendencies_Some_total (plays : list BuildTendencies.row)
    (st : BuildTendencies.Stats) :
  BuildTendencies.compute_tendencies plays = Ok (Some st) ->
  (List.length (filter (BuildTendencies.play_type_is "pass") plays)
   + List.length (filter (BuildTendencies.play_type_is "run") plays) <> 0)%nat.
Proof.
  unfold BuildTendencies.compute_tendencies.
  destruct (List.length plays =? 0)%nat; [discriminate |].
  destruct (_ + _ =? 0)%nat eqn:E; [discriminate |].
  intros _. now apply Nat.eqb_neq.
Qed.

Lemma regular_count (plays : list BuildTendencies.row) :
  List.length (filter is_regular plays)
  = (List.length (filter (BuildTendencies.play_type_is "pass") plays)
     + List.length (filter (BuildTendencies.play_type_is "run") plays))%nat.
Proof.
  induction plays as [| r plays IH]; [reflexivity |].
  cbn [filter]. unfold is_regular at 1.
  destruct (BuildTendencies.play_type_is "pass" r) eqn:Ep.
  - rewrite (tendency_pass_is_not_run r Ep). cbn [orb List.length]. lia.
  - destruct (BuildTendencies.play_type_is "run" r); cbn [orb List.length]; lia.
Qed.

(** X15. The statistics of the tendency script are proportions: the sample
    size is the number of pass and run plays, at least 1 and at most the
    table's length; the pass rate, the run rate and the three pass-location
    shares lie between 0 and 1.  The shotgun rate is never negative and is at
    most 1 when every shotgun play of the table is a pass or a run, as in
    the tables [main] passes; it is 2 for one pass and two shotgun punts. *)
Theorem tendency_rates_are_proportions :
  (forall plays st,
      BuildTendencies.compute_tendencies plays = Ok (Some st) ->
      (1 <= BuildTendencies.sampleSize st <= List.length plays)%nat /\
      BuildTendencies.sampleSize st
      = (List.length (filter (BuildTendencies.play_type_is "pass") plays)
         + List.length (filter (BuildTendencies.play_type_is "run") plays))%nat /\
      (0 <= BuildTendencies.passRate st <= 1)%R /\
      (0 <= BuildTendencies.runRate st <= 1)%R /\
      (0 <= BuildTendencies.passLeft st <= 1)%R /\
      (0 <= BuildTendencies.passMiddle st <= 1)%R /\
      (0 <= BuildTendencies.passRight st <= 1)%R /\
      (0 <= BuildTendencies.shotgunRate st)%R /\
      ((forall r, In r plays -> BuildTendencies.shotgun_is_1 r = true ->
                  is_regular r = true) ->
       (BuildTendencies.shotgunRate st <= 1)%R)) /\
  (exists st,
      BuildTendencies.compute_tendencies
        [pbp "pass" 0; pbp "punt" 1; pbp "punt" 1] = Ok (Some st) /\
      BuildTendencies.shotgunRate st = 2%R).
Proof.
  split.
  - intros plays st Hc.
    pose proof (tendencies_Some_total _ _ Hc) as Hnz.
    destruct (BuildTendencies_compute_Some plays Hnz)
      as (st' & Hst & Hn & Hp & Hr & Hl & Hm & Hrt & Hs).
    rewrite Hc in Hst. injection Hst as <-.
    set (pass_plays := filter (BuildTendencies.play_type_is "pass") plays) in *.
    set (run_plays := filter (BuildTendencies.play_type_is "run") plays) in *.
    pose proof (filter_lengths_disjoint _ _ plays tendency_pass_is_not_run) as Hdis.
    fold pass_plays run_plays in Hdis.
    assert (Hshare : forall l,
               (0 <= (if (0 <? List.length pass_plays)%nat
                      then round3
                             (INR (List.length
                                     (filter (BuildTendencies.pass_location_is l)
                                             pass_plays))
                              / INR (List.length pass_plays))
                      else 0) <= 1)%R).
    { intros l. destruct (0 <? List.length pass_plays)%nat eqn:E; [| lra].
      apply Nat.ltb_lt in E.
      destruct (ratio_bounds _ _ (filter_length_le
                                    (BuildTendencies.pass_location_is l) pass_plays) E).
      split; [now apply round3_nonneg | now apply round3_le_1]. }
    assert (Hrate : forall n, (n <= List.length pass_plays + List.length run_plays)%nat ->
               (0 <= round3 (INR n / INR (List.length pass_plays
                                          + List.length run_plays)) <= 1)%R).
    { intros n Hle. destruct (ratio_bounds _ _ Hle); [lia |].
      split; [now apply round3_nonneg | now apply round3_le_1]. }
    rewrite Hn, Hp, Hr, Hl, Hm, Hrt, Hs.
    split; [lia |]. split; [reflexivity |].
    split; [apply Hrate; lia |]. split; [apply Hrate; lia |].
    split; [apply Hshare |]. split; [apply Hshare |]. split; [apply Hshare |].
    split.
    + apply round3_nonneg. apply Rmult_le_pos; [apply pos_INR |].
      left. apply Rinv_0_lt_compat, lt_0_INR. lia.
    + intros Hreg. apply Hrate.
      assert (Hsub : filter BuildTendencies.shotgun_is_1 plays
                     = filter BuildTendencies.shotgun_is_1 (filter is_regular plays)).
      { clear -Hreg. induction plays as [| r plays IH]; [reflexivity |]. simpl.
        destruct (BuildTendencies.shotgun_is_1 r) eqn:Es.
        - rewrite (Hreg r (or_introl eq_refl) Es). simpl. rewrite Es. f_equal.
          apply IH. intros; apply Hreg; auto. now right.
        - destruct (is_regular r); simpl; rewrite ?Es;
            apply IH; intros; apply Hreg; auto; now right. }
      rewrite Hsub.
      eapply Nat.le_trans; [apply filter_length_le |].
      unfold pass_plays, run_plays. rewrite regular_count. lia.
  - destruct (BuildTendencies_compute_Some
                [pbp "pass" 0; pbp "punt" 1; pbp "punt" 1])
      as (st & Hst & _ & _ & _ & _ & _ & _ & Hs); [discriminate |].
    exists st. split; [exact Hst |]. rewrite Hs.
    assert (Hsg : filter BuildTendencies.shotgun_is_1
                    [pbp "pass" 0; pbp "punt" 1; pbp "punt" 1]
                  = [pbp "punt" 1; pbp "punt" 1]).
    { unfold filter, BuildTendencies.shotgun_is_1, pbp. simpl.
      destruct (Req_dec_T 0 1); [lra |]. destruct (Req_dec_T 1 1); [| lra].
      reflexivity. }
    rewrite Hsg. simpl.
    replace ((1 + 1) / 1)%R with (IZR 2) by lra. apply round3_IZR.
Qed.

Lemma filter_filter_implied {A : Type} (p q : A -> bool) (l : list A) :
  (forall a, p a = true -> q a = true) -> filter p (filter q l) = filter p l.
Proof.
  intros Hpq. induction l as [| a l IH]; [reflexivity |]. simpl.
  destruct (q a) eqn:Eq; simpl.
  - now rewrite IH.
  - destruct (p a) eqn:Ep; [| exact IH].
    rewrite (Hpq a Ep) in Eq. discriminate.
Qed.

(** X16. The plays that are neither passes nor runs do not enter the sample
    of the tendency script: dropping them from the table first, as [main]
    does, leaves the sample size, the pass and run rates and the three
    pass-location shares unchanged, and the sample is then the whole
    table. *)
Theorem tendencies_ignore_other_plays
    (plays : list BuildTendencies.row) (st : BuildTendencies.Stats) :
  BuildTendencies.compute_tendencies plays = Ok (Some st) ->
  exists st',
    BuildTendencies.compute_tendencies (filter is_regular plays) = Ok (Some st') /\
    BuildTendencies.sampleSize st' = BuildTendencies.sampleSize st /\
    BuildTendencies.sampleSize st' = List.length (filter is_regular plays) /\
    BuildTendencies.passRate st' = BuildTendencies.passRate st /\
    BuildTendencies.runRate st' = BuildTendencies.runRate st /\
    BuildTendencies.passLeft st' = BuildTendencies.passLeft st /\
    BuildTendencies.passMiddle st' = BuildTendencies.passMiddle st /\
    BuildTendencies.passRight st' = BuildTendencies.passRight st.
Proof.
  intros Hc. pose proof (tendencies_Some_total _ _ Hc) as Hnz.
  destruct (BuildTendencies_compute_Some plays Hnz)
    as (st0 & Hst & Hn & Hp & Hr & Hl & Hm & Hrt & _).
  rewrite Hc in Hst. injection Hst as <-.
  assert (Hpass : filter (BuildTendencies.play_type_is "pass")
                         (filter is_regular plays)
                  = filter (BuildTendencies.play_type_is "pass") plays).
  { apply filter_filter_implied. intros r Hr0. unfold is_regular. now rewrite Hr0. }
  assert (Hrun : filter (BuildTendencies.play_type_is "run")
                        (filter is_regular plays)
                 = filter (BuildTendencies.play_type_is "run") plays).
  { apply filter_filter_implied. intros r Hr0. unfold is_regular.
    rewrite Hr0. apply orb_true_r. }
  destruct (BuildTendencies_compute_Some (filter is_regular plays))
    as (st' & Hst' & Hn' & Hp' & Hr' & Hl' & Hm' & Hrt' & _).
  { now rewrite Hpass, Hrun. }
  rewrite Hpass, Hrun in *.
  exists st'. split; [exact Hst' |].
  rewrite Hn', Hp', Hr', Hl', Hm', Hrt', Hn, Hp, Hr, Hl, Hm, Hrt.
  repeat split. now rewrite regular_count.
Qed.

Lemma tendencies_ignore_other_plays_witness :
  exists st st',
    BuildTendencies.compute_tendencies
      [pbp "pass" 0; pbp "punt" 1; pbp "run" 1] = Ok (Some st) /\
    BuildTendencies.compute_tendencies [pbp "pass" 0; pbp "run" 1]
    = Ok (Some st') /\
    BuildTendencies.sampleSize st' = 2%nat /\
    BuildTendencies.passRate st' = BuildTendencies.passRate st.
Proof.
  destruct (BuildTendencies_compute_Some
              [pbp "pass" 0; pbp "punt" 1; pbp "run" 1])
    as (st & Hst & _); [discriminate |].
  destruct (tendencies_ignore_other_plays _ _ Hst)
    as (st' & Hst' & _ & Hn & Hp & _).
  exists st, st'. split; [exact Hst |]. split; [exact Hst' |].
  split; [exact Hn | exact Hp].
Defined.

(* ------------------------------------------------------------------ *)
(** ** The weekly preprocessing script *)

Lemma process_players_total (play_df : list PreprocessData.row) :
  exists pls,
    mapM (fun id => PreprocessData.process_player
                      id (filter (fun r => (PreprocessData.nfl_id r =? id)%Z) play_df))
         (group_keys Z.ltb Z.eqb (map PreprocessData.nfl_id play_df)) = Ok pls /\
    map PreprocessData.nflId pls
    = group_keys Z.ltb Z.eqb (map PreprocessData.nfl_id play_df) /\
    forall pl, In pl pls ->
      PreprocessData.frames pl
      = map PreprocessData.frame_of_row
            (sort_values PreprocessData.frame_id
               (filter (fun r => (PreprocessData.nfl_id r =? PreprocessData.nflId pl)%Z)
                       play_df)).
Proof.
  set (g := fun id => PreprocessData.process_player
                        id (filter (fun r => (PreprocessData.nfl_id r =? id)%Z) play_df)).
  assert (Hg : forall id pl, g id = Ok pl ->
                 PreprocessData.nflId pl = id /\
                 PreprocessData.frames pl
                 = map PreprocessData.frame_of_row
                       (sort_values PreprocessData.frame_id
                          (filter (fun r => (PreprocessData.nfl_id r =? id)%Z) play_df))).
  { intros id pl. unfold g, PreprocessData.process_player.
    destruct (sort_values _ _) as [| r0 rs]; [discriminate |].
    intros [= <-]. split; reflexivity. }
  destruct (mapM_total g (group_keys Z.ltb Z.eqb (map PreprocessData.nfl_id play_df)))
    as (pls & Hpls).
  { intros id Hid. rewrite (group_keys_In Z.ltb Z.eqb Z.eqb_eq) in Hid.
    apply in_map_iff in Hid as (r & Hr & Hin).
    unfold g, PreprocessData.process_player.
    destruct (sort_values PreprocessData.frame_id
                (filter (fun r0 => (PreprocessData.nfl_id r0 =? id)%Z) play_df))
      as [| r0 rs] eqn:E.
    - exfalso. revert E. apply sort_values_nonempty.
      apply (filter_nonempty _ _ r Hin). now apply Z.eqb_eq.
    - eexists. reflexivity. }
  exists pls. split; [exact Hpls |]. split.
  - erewrite (mapM_Ok_map g (fun id => id)); [apply map_id | | exact Hpls].
    intros id pl _ H. now apply Hg in H.
  - intros pl Hpl. destruct (mapM_Ok_In _ _ _ _ Hpls Hpl) as (id & _ & H).
    apply Hg in H as [<- H]. exact H.
Qed.

(** X17. [process_play] of the weekly script raises [IndexError] on a table
    without rows and [ValueError] when the first row has no yardline or no
    output frame count, and nothing else.  Otherwise it returns a record
    with the first row's game and play ids, the integer parts of its
    yardline and of its output frame count as [numFrames], one player per
    distinct player id in strictly increasing order, and for each player one
    frame per row of the player, in non-decreasing frame order. *)
Theorem process_play_outcome
    (first_row : PreprocessData.row) (rest : list PreprocessData.row) :
  let play_df := first_row :: rest in
  let yardline := Input.absolute_yardline_number (PreprocessData.tracking first_row) in
  let count := PreprocessData.num_frames_output first_row in
  PreprocessData.process_play [] = Raise IndexError /\
  (yardline = None \/ count = None ->
   PreprocessData.process_play play_df = Raise ValueError) /\
  (forall v n, yardline = Some v -> count = Some n ->
   exists p,
     PreprocessData.process_play play_df = Ok p /\
     (PreprocessData.gameId p, PreprocessData.playId p)
     = PreprocessData.key first_row /\
     PreprocessData.yardline p = py_int v /\
     PreprocessData.numFrames p = py_int n /\
     strictly_increasing (map PreprocessData.nflId (PreprocessData.players p)) /\
     (forall id, In id (map PreprocessData.nflId (PreprocessData.players p)) <->
                 exists r, In r play_df /\ PreprocessData.nfl_id r = id) /\
     forall pl, In pl (PreprocessData.players p) ->
       let rows := filter (fun r => (PreprocessData.nfl_id r
                                     =? PreprocessData.nflId pl)%Z) play_df in
       List.length (PreprocessData.frames pl) = List.length rows /\
       StronglySorted Z.le (map PreprocessData.f (PreprocessData.frames pl))).
Proof.
  intros play_df yardline count.
  destruct (process_players_total play_df) as (pls & Hpls & Hids & Hfr).
  split; [reflexivity |]. split.
  - intros Hmiss. unfold PreprocessData.process_play, play_df.
    fold play_df. rewrite Hpls. cbn [bind]. fold yardline. fold count.
    destruct yardline; [| reflexivity]. cbn [bind].
    destruct Hmiss as [Hy | ->]; [discriminate | reflexivity].
  - intros v n Hy Hn. unfold PreprocessData.process_play, play_df.
    fold play_df. rewrite Hpls. cbn [bind]. fold yardline. fold count.
    rewrite Hy, Hn. cbn [bind].
    eexists. split; [reflexivity |]. cbn.
    split; [reflexivity |]. split; [reflexivity |]. split; [reflexivity |].
    split; [| split].
    + rewrite Hids. unfold strictly_increasing.
      eapply strongly_sorted_weaken;
        [| apply (group_keys_sorted Z.ltb Z.eqb Z.eqb_eq Z_ltb_trans Z_ltb_total)].
      intros a b. apply Z.ltb_lt.
    + intros id. rewrite Hids, (group_keys_In Z.ltb Z.eqb Z.eqb_eq), in_map_iff.
      split; intros (r & H1 & H2); exists r; auto.
    + intros pl Hpl. rewrite (Hfr pl Hpl). split.
      * rewrite length_map.
        symmetry. apply Permutation_length, sort_values_perm.
      * rewrite map_map.
        change (fun r => PreprocessData.f (PreprocessData.frame_of_row r))
          with PreprocessData.frame_id.
        apply frame_ordered_map, sort_values_ordered.
Qed.

Lemma process_play_Ok (first_row : PreprocessData.row)
    (rest : list PreprocessData.row) (p : PreprocessData.Play) :
  PreprocessData.process_play (first_row :: rest) = Ok p ->
  Input.absolute_yardline_number (PreprocessData.tracking first_row) <> None /\
  PreprocessData.num_frames_output first_row <> None /\
  (PreprocessData.gameId p, PreprocessData.playId p) = PreprocessData.key first_row.
Proof.
  unfold PreprocessData.process_play. intros H.
  apply bind_Ok in H as (pls & _ & H).
  apply bind_Ok in H as (yl & Hyl & H).
  apply bind_Ok in H as (nf & Hnf & H). injection H as <-.
  destruct (Input.absolute_yardline_number _); [| discriminate].
  destruct (PreprocessData.num_frames_output _); [| discriminate].
  repeat split; discriminate.
Qed.

Lemma process_play_Ok_intro (first_row : PreprocessData.row)
    (rest : list PreprocessData.row) :
  Input.absolute_yardline_number (PreprocessData.tracking first_row) <> None ->
  PreprocessData.num_frames_output first_row <> None ->
  exists p, PreprocessData.process_play (first_row :: rest) = Ok p.
Proof.
  intros Hy Hn. unfold PreprocessData.process_play.
  destruct (process_players_total (first_row :: rest)) as (pls & -> & _).
  cbn [bind].
  destruct (Input.absolute_yardline_number _); [| congruence].
  destruct (PreprocessData.num_frames_output _); [| congruence].
  cbn [bind]. eexists. reflexivity.
Qed.

Lemma week_plays_In (input_df : list PreprocessData.row) (p : PreprocessData.Play) :
  In p (PreprocessData.week_plays input_df) <->
  exists k, In k (group_keys key_ltb key_eqb (map PreprocessData.key input_df)) /\
            PreprocessData.process_play (PreprocessData.play_rows k input_df) = Ok p.
Proof.
  unfold PreprocessData.week_plays. rewrite in_flat_map.
  split; intros (k & Hk & H); exists k; (split; [exact Hk |]).
  - destruct (PreprocessData.process_play _) as [p' | e]; [| destruct H].
    destruct H as [<- | []]. reflexivity.
  - rewrite H. now left.
Qed.

(** X18. [main] of the weekly script skips a play whose processing raises
    and keeps going: the plays it collects over the weeks 1 to 3 are those
    of the weeks with an input file, and a (game id, play id) key has a
    collected play exactly when, in such a week, the first row of the play
    has a yardline and an output frame count.  The output files play no
    part, and the sample holds the first plays, at most 20. *)
Theorem bad_plays_are_skipped
    (input_files output_files : Z -> option (list PreprocessData.row)) :
  let collected := PreprocessData.all_plays input_files output_files in
  (forall k,
      (exists p, In p collected /\
                 (PreprocessData.gameId p, PreprocessData.playId p) = k) <->
      (exists week input_df first_row rest,
          In week [1; 2; 3]%Z /\
          input_files week = Some input_df /\
          PreprocessData.play_rows k input_df = first_row :: rest /\
          Input.absolute_yardline_number (PreprocessData.tracking first_row) <> None /\
          PreprocessData.num_frames_output first_row <> None)) /\
  (forall output_files',
      PreprocessData.all_plays input_files output_files' = collected) /\
  (exists later,
      collected = PreprocessData.sample_plays input_files output_files ++ later /\
      (List.length (PreprocessData.sample_plays input_files output_files) <= 20)%nat /\
      (later <> [] ->
       List.length (PreprocessData.sample_plays input_files output_files) = 20%nat)).
Proof.
  intros collected.
  assert (Hload : forall outs week,
             fst (PreprocessData.load_week_data input_files outs week)
             = input_files week).
  { intros outs week. unfold PreprocessData.load_week_data.
    now destruct (input_files week). }
  assert (Hk : forall df k (r : PreprocessData.row) rest,
             PreprocessData.play_rows k df = r :: rest ->
             In r df /\ PreprocessData.key r = k).
  { intros df k r rest E.
    assert (Hin : In r (PreprocessData.play_rows k df)) by (rewrite E; now left).
    apply filter_In in Hin as [Hin Hkey]. now apply key_eqb_eq in Hkey. }
  split; [| split].
  - intros k. unfold collected, PreprocessData.all_plays. split.
    + intros (p & Hp & Hkey). apply in_flat_map in Hp as (week & Hweek & Hp).
      rewrite Hload in Hp.
      destruct (input_files week) as [df |] eqn:Edf; [| destruct Hp].
      apply week_plays_In in Hp as (k' & Hk' & Hproc).
      destruct (PreprocessData.play_rows k' df) as [| r rest] eqn:E;
        [discriminate |].
      destruct (process_play_Ok _ _ _ Hproc) as (Hy & Hn & Hpk).
      destruct (Hk _ _ _ _ E) as [_ Hrk].
      assert (Heq : k' = k) by congruence. rewrite Heq in E.
      exists week, df, r, rest. repeat split; assumption.
    + intros (week & df & r & rest & Hweek & Edf & E & Hy & Hn).
      destruct (process_play_Ok_intro r rest Hy Hn) as (p & Hp).
      destruct (process_play_Ok _ _ _ Hp) as (_ & _ & Hpk).
      destruct (Hk _ _ _ _ E) as [Hin Hrk].
      exists p. split; [| congruence].
      apply in_flat_map. exists week. split; [exact Hweek |].
      rewrite Hload, Edf. apply week_plays_In. exists k. split.
      * rewrite (group_keys_In key_ltb key_eqb key_eqb_eq). apply in_map_iff.
        exists r. auto.
      * now rewrite E.
  - intros outs. unfold collected, PreprocessData.all_plays.
    apply flat_map_ext. intros week. now rewrite !Hload.
  - exists (skipn 20 collected). unfold PreprocessData.sample_plays.
    fold collected. split; [symmetry; apply firstn_skipn |].
    split; [apply firstn_le_length |].
    intros Hlater. rewrite length_firstn.
    destruct (Nat.le_gt_cases 20 (List.length collected)) as [Hle | Hgt]; [lia |].
    exfalso. apply Hlater. apply skipn_all2. lia.
Qed.

(* ------------------------------------------------------------------ *)
(** ** Frame numbering and the metrics *)

Lemma nearest_defender_map (g : Input.row -> Input.row) (frame : list Input.row) :
  (forall r, is_target (g r) = is_target r) ->
  (forall r, is_defense (g r) = is_defense r) ->
  (forall r, Input.x (g r) = Input.x r /\ Input.y (g r) = Input.y r) ->
  nearest_defender (map g frame) = nearest_defender frame.
Proof.
  intros Ht Hd Hxy. unfold nearest_defender. rewrite !filter_map_commute.
  rewrite (filter_ext _ _ Ht), (filter_ext _ _ Hd).
  destruct (filter is_target frame) as [| t ts]; [reflexivity |].
  cbn [map]. destruct (Hxy t) as [-> ->].
  destruct (filter is_defense frame) as [| d ds]; [reflexivity |].
  cbn [map]. change (g d :: map g ds) with (map g (d :: ds)).
  rewrite map_map.
  assert (Hdist : forall r, distance (Input.x t) (Input.y t) (g r)
                            = distance (Input.x t) (Input.y t) r).
  { intros r. unfold distance. now destruct (Hxy r) as [-> ->]. }
  now rewrite (map_ext _ _ Hdist), Hdist.
Qed.

Lemma series_max_shift (d : Z) (l : list Z) :
  series_max (map (fun z => (z + d)%Z) l)
  = option_map (fun m => (m + d)%Z) (series_max l).
Proof.
  destruct l as [| a l]; [reflexivity |]. simpl. f_equal.
  revert a. induction l as [| b l IH]; intros a; simpl; [reflexivity |].
  rewrite <- IH. f_equal. lia.
Qed.

(** X19. Separation does not depend on how the frames of a play are
    numbered: moving every frame index by the same amount leaves it
    unchanged.  Coverage tightness does: it is null for a play without a row
    at frame index 1, whatever rows the play has. *)
Theorem separation_ignores_frame_numbering (play_df : list Input.row) :
  (forall d,
      compute_separation_at_target (map (shift_frame d) play_df)
      = compute_separation_at_target play_df) /\
  ((forall r, In r play_df -> Input.frame_id r <> 1%Z) ->
   compute_coverage_tightness play_df = None).
Proof.
  split.
  - intros d.
    assert (Hids : map Input.frame_id (map (shift_frame d) play_df)
                   = map (fun z => (z + d)%Z) (map Input.frame_id play_df)).
    { rewrite !map_map. reflexivity. }
    change (compute_separation_at_target (map (shift_frame d) play_df))
      with (nearest_defender
              match series_max (map Input.frame_id (map (shift_frame d) play_df)) with
              | Some m => filter (at_frame m) (map (shift_frame d) play_df)
              | None => []
              end).
    change (compute_separation_at_target play_df)
      with (nearest_defender
              match series_max (map Input.frame_id play_df) with
              | Some m => filter (at_frame m) play_df
              | None => []
              end).
    rewrite Hids, series_max_shift.
    destruct (series_max (map Input.frame_id play_df)) as [m |]; simpl;
      [| reflexivity].
    rewrite filter_map_commute.
    rewrite (filter_ext (fun a => at_frame (m + d) (shift_frame d a)) (at_frame m)).
    + apply nearest_defender_map; intros r; try reflexivity. split; reflexivity.
    + intros r. unfold at_frame, shift_frame. simpl.
      destruct (Z.eqb_spec (Input.frame_id r + d) (m + d));
        destruct (Z.eqb_spec (Input.frame_id r) m); try reflexivity; lia.
  - intros Hno. rewrite coverage_is_nearest.
    rewrite filter_none; [reflexivity |].
    intros r Hr. apply Z.eqb_neq. now apply Hno.
Qed.
